(** * gcl_sdk universal agent: hashing, direct driver, REST backend client,
      dependency tracking view.

    A shallow embedding of
    - [gcl_sdk/agents/universal/utils.py]            ([calculate_hash]),
    - [gcl_sdk/agents/universal/drivers/direct.py]   ([ResourceTransformer],
      [DirectAgentDriver]),
    - [gcl_sdk/agents/universal/clients/backend/rest.py]
      ([GCRestApiBackendClient]),
    - [gcl_sdk/migrations/0004-ua-resources-relations-e9a811.py]
      (the view [ua_outdated_tracked_full_hash_instances_view]),
    - [gcl_sdk/agents/universal/api/crypto.py], [packers.py] and
      [controllers.py] (the encryption of the agent API),
    - [gcl_sdk/common/utils.py] (the entry point loaders).

    Python exceptions are values of [exn]; a call that may raise returns
    [result A]; stateful calls thread the state explicitly. *)

From Stdlib Require Import ZArith Ascii String List Bool.
From stdpp Require Import base option list gmap strings pretty sorting.

Local Open Scope string_scope.
Set Warnings "-register-all,-clear-no-such-hyp".

(** ** Exceptions *)

Module client_exc.
(** [gcl_sdk.agents.universal.clients.backend.exceptions] *)
Inductive t := ResourceNotFound | ResourceAlreadyExists | ResourceProjectMismatch.
End client_exc.

Module storage_exc.
(** [gcl_sdk.agents.universal.storage.exceptions] *)
Inductive t := ItemNotFound | ItemAlreadyExists.
End storage_exc.

Module driver_exc.
(** [gcl_sdk.agents.universal.drivers.exceptions] *)
Inductive t := ResourceNotFound | ResourceAlreadyExists.
End driver_exc.

Module bazooka_exc.
(** [bazooka.exceptions], the HTTP client library's errors. *)
Inductive t := NotFoundError | ConflictError | OtherHTTPError (status : Z).
End bazooka_exc.

(** The exceptions that travel through the modelled code.  [TypeError],
    [KeyError], [ValueError] and [RecursionError] are the Python builtins.
    [SerializationError] is the error kind named by the design document for
    canonicalization failures; no class of that name exists in the code
    base and no modelled function builds it. *)
Inductive exn :=
| TypeError (msg : string)
| KeyError (key : string)
| ValueError (msg : string)
| RecursionError
| SerializationError
| ClientExc (e : client_exc.t)
| StorageExc (e : storage_exc.t)
| DriverExc (e : driver_exc.t)
| BazookaExc (e : bazooka_exc.t).

Inductive result (A : Type) :=
| Ok (a : A)
| Raise (e : exn).
Arguments Ok {A} a.
Arguments Raise {A} e.

Definition bind {A B} (r : result A) (k : A → result B) : result B :=
  match r with
  | Ok a => k a
  | Raise e => Raise e
  end.

Declare Scope py_scope.
Delimit Scope py_scope with py.
Notation "x <-- c ;; k" := (bind c (λ x, k))
  (at level 100, c at next level, right associativity) : py_scope.
Local Open Scope py_scope.

Definition is_ok {A} (r : result A) : bool :=
  match r with Ok _ => true | Raise _ => false end.

(** [sequence rs]: the values of [rs] in order, or the first exception. *)
Fixpoint sequence {A} (rs : list (result A)) : result (list A) :=
  match rs with
  | [] => Ok []
  | r :: rs' => a <-- r ;; l <-- sequence rs' ;; Ok (a :: l)
  end.

(** ** JSON-like Python values *)

(** The values handed to [json.dumps].  A Python [dict] keeps insertion
    order and has unique keys: it is an association list in insertion
    order, whose keys are pairwise distinct when [wf_json] holds.  Attribute
    names are strings.  A float is carried as the text [float.__repr__]
    gives for it.  [JObject] is any object the encoder has no rule for (a
    [set], [bytes], [uuid.UUID], [datetime], ...), with its type name and
    its truth value in a condition (an empty [set] or [bytes] is false);
    such an object is not equal to a string.  [JCycle up] is a list or
    mapping met again inside itself: the container [up] levels above the
    place where it stands, which makes the value circular. *)
Inductive json :=
| JNull
| JBool (b : bool)
| JInt (n : Z)
| JFloat (repr : string)
| JStr (s : string)
| JList (items : list json)
| JDict (items : list (string * json))
| JObject (type_name : string) (truth : bool)
| JCycle (up : nat).

Fixpoint wf_json (o : json) : bool :=
  match o with
  | JList l => forallb wf_json l
  | JDict d =>
      bool_decide (NoDup (map fst d))
      && (fix go (d : list (string * json)) : bool :=
            match d with
            | [] => true
            | (_, v) :: d' => wf_json v && go d'
            end) d
  | _ => true
  end.

(** [assoc k d] is [d.get(k)] on the association list. *)
Fixpoint assoc {A} (k : string) (d : list (string * A)) : option A :=
  match d with
  | [] => None
  | (k', v) :: d' => if String.eqb k k' then Some v else assoc k d'
  end.

(** Two values have the same content when they agree everywhere except for
    the insertion order of their mappings, at every nesting level. *)
Fixpoint same_content (a b : json) {struct a} : bool :=
  match a, b with
  | JNull, JNull => true
  | JBool x, JBool y => Bool.eqb x y
  | JInt x, JInt y => Z.eqb x y
  | JFloat x, JFloat y => String.eqb x y
  | JStr x, JStr y => String.eqb x y
  | JObject x tx, JObject y ty => String.eqb x y && Bool.eqb tx ty
  | JCycle x, JCycle y => Nat.eqb x y
  | JList la, JList lb =>
      (fix go (la lb : list json) : bool :=
         match la, lb with
         | [], [] => true
         | x :: la', y :: lb' => same_content x y && go la' lb'
         | _, _ => false
         end) la lb
  | JDict da, JDict db =>
      Nat.eqb (length da) (length db)
      && (fix go (da : list (string * json)) : bool :=
            match da with
            | [] => true
            | (k, v) :: da' =>
                match assoc k db with
                | Some w => same_content v w
                | None => false
                end && go da'
            end) da
  | _, _ => false
  end.

(** ** [json.dumps(value, separators=(",", ":"), sort_keys=True)] *)

Definition hex_digit (n : N) : ascii :=
  match n with
  | 0 => "0" | 1 => "1" | 2 => "2" | 3 => "3" | 4 => "4" | 5 => "5"
  | 6 => "6" | 7 => "7" | 8 => "8" | 9 => "9" | 10 => "a" | 11 => "b"
  | 12 => "c" | 13 => "d" | 14 => "e" | _ => "f"
  end%N%char.

Definition dquote : ascii := ascii_of_N 34.
Definition backslash : ascii := ascii_of_N 92.

(** A backslash escape. *)
Definition esc (s : string) : string := String backslash s.

(** [py_encode_basestring_ascii]'s replacement for one character
    ([ensure_ascii] is left at its default): the two-character escapes of
    [ESCAPE_DCT], the character itself from space to tilde, a [u00XX]
    escape otherwise.  Characters are code points below 256. *)
Definition escape_char (c : ascii) : string :=
  let n := N_of_ascii c in
  if (n =? 34)%N then esc (String dquote EmptyString)
  else if (n =? 92)%N then esc (String backslash EmptyString)
  else if (n =? 10)%N then esc "n"
  else if (n =? 13)%N then esc "r"
  else if (n =? 9)%N then esc "t"
  else if (n =? 8)%N then esc "b"
  else if (n =? 12)%N then esc "f"
  else if ((32 <=? n) && (n <=? 126))%N then String c EmptyString
  else esc ("u00" ++ String (hex_digit (n / 16))
                       (String (hex_digit (n mod 16)) EmptyString)).

Fixpoint escape_chars (s : string) : string :=
  match s with
  | EmptyString => EmptyString
  | String c s' => escape_char c ++ escape_chars s'
  end.

Definition encode_basestring_ascii (s : string) : string :=
  String dquote (escape_chars s ++ String dquote EmptyString).

(** [sorted(dct.items())] compares the (key, value) tuples; the keys of a
    dict are pairwise distinct, so the keys decide.  Strings compare by code
    point, lexicographically. *)
Definition item_le {A} : relation (string * A) := λ x y, String.le x.1 y.1.

Definition sort_items {A} (d : list (string * A)) : list (string * A) :=
  merge_sort item_le d.

(** [", ".join(parts)] with the item separator [sep]. *)
Fixpoint join (sep : string) (parts : list string) : string :=
  match parts with
  | [] => EmptyString
  | [p] => p
  | p :: ps => p ++ sep ++ join sep ps
  end.

(** One [key:value] member of an object, given the rendering of the value. *)
Definition dumps_member (kr : string * result string) : result string :=
  s <-- kr.2 ;; Ok (encode_basestring_ascii kr.1 ++ ":" ++ s).

(** What the encoder meets of the running interpreter: how many nested
    lists and mappings it can still enter before the interpreter raises
    [RecursionError] (it depends on the recursion limit and on the depth of
    the call), and [sys.get_int_max_str_digits()], 4300 unless configured,
    0 for no limit and at least 640 otherwise. *)
Class Interpreter := {
  recursion_budget : nat;
  int_max_str_digits : nat;
}.

(** [int.__repr__(n)]: the decimal text, or [ValueError] when the number
    has more digits than the limit (the message is that of CPython
    3.12). *)
Definition int_repr `{Interpreter} (n : Z) : result string :=
  let digits := String.length (pretty (Z.abs n)) in
  if negb (Nat.eqb int_max_str_digits 0) && (int_max_str_digits <? digits)%nat
  then Raise (ValueError ("Exceeds the limit (" ++ pretty int_max_str_digits
                          ++ " digits) for integer string conversion; "
                          ++ "use sys.set_int_max_str_digits() to increase the limit"))
  else Ok (pretty n).

(** [floatstr] of the encoder, [allow_nan] left at its default: a float
    that is not finite is written as JavaScript has it, any other float as
    [float.__repr__] gives it. *)
Definition floatstr (repr : string) : string :=
  if String.eqb repr "nan" then "NaN"
  else if String.eqb repr "inf" then "Infinity"
  else if String.eqb repr "-inf" then "-Infinity"
  else repr.

(** The encoder, with [budget] nested containers left to enter.  Entering
    a list or a mapping takes one level of the budget, checked before the
    container is looked at; a container met again inside itself is a
    circular reference.  For a mapping the members are rendered in sorted
    key order and the first member that cannot be rendered raises;
    rendering has no effects, so the members are rendered here before they
    are sorted, and [sequence] takes the first exception in sorted
    order. *)
Fixpoint _iterencode `{Interpreter} (budget : nat) (o : json) {struct o}
  : result string :=
  match o with
  | JNull => Ok "null"
  | JBool b => Ok (if b then "true" else "false")
  | JInt n => int_repr n
  | JFloat r => Ok (floatstr r)
  | JStr s => Ok (encode_basestring_ascii s)
  | JList l =>
      match budget with
      | O => Raise RecursionError
      | S budget' =>
          parts <-- sequence (map (_iterencode budget') l) ;;
          Ok ("[" ++ join "," parts ++ "]")
      end
  | JDict d =>
      match budget with
      | O => Raise RecursionError
      | S budget' =>
          let rendered :=
            (fix go (d : list (string * json)) : list (string * result string) :=
               match d with
               | [] => []
               | (k, v) :: d' => (k, _iterencode budget' v) :: go d'
               end) d in
          parts <-- sequence (map dumps_member (sort_items rendered)) ;;
          Ok ("{" ++ join "," parts ++ "}")
      end
  | JObject t _ =>
      Raise (TypeError ("Object of type " ++ t ++ " is not JSON serializable"))
  | JCycle _ =>
      match budget with
      | O => Raise RecursionError
      | S _ => Raise (ValueError "Circular reference detected")
      end
  end.

Definition dumps `{Interpreter} (o : json) : result string :=
  _iterencode recursion_budget o.

(** [str.encode("utf-8")] for code points below 256. *)
Definition utf8_char (c : ascii) : string :=
  let n := N_of_ascii c in
  if (n <? 128)%N then String c EmptyString
  else String (ascii_of_N (192 + n / 64))
         (String (ascii_of_N (128 + n mod 64)) EmptyString).

Fixpoint encode_utf8 (s : string) : string :=
  match s with
  | EmptyString => EmptyString
  | String c s' => utf8_char c ++ encode_utf8 s'
  end.

(** The [hash_method] argument of [calculate_hash]: a constructor of hash
    objects with [update] and [hexdigest] ([hashlib.sha256] by default). *)
Class HashMethod := {
  hash_obj : Type;
  hash_new : hash_obj;
  hash_update : hash_obj → string → hash_obj;
  hash_hexdigest : hash_obj → string;
}.

(** [gcl_sdk.agents.universal.utils.calculate_hash] *)
Definition calculate_hash `{Interpreter} `{HashMethod} (value : json)
  : result string :=
  let m := hash_new in
  s <-- dumps value ;;
  let m := hash_update m (encode_utf8 s) in
  Ok (hash_hexdigest m).





(** The limits of a CPython process as it starts: a recursion limit of
    1000 and 4300 digits. *)
Definition cpython_defaults : Interpreter :=
  {| recursion_budget := 1000; int_max_str_digits := 4300 |}.

(** A toy hash method for running examples: the digest is the text fed to
    the hash object. *)
Definition echo_hash : HashMethod :=
  {| hash_obj := string; hash_new := EmptyString;
     hash_update := λ m b, m ++ b; hash_hexdigest := λ m, m |}.



(** ** Python dictionaries of attributes *)

(** [dict[str, Any]]: the attribute mapping of a resource. *)
Abbreviation pydict := (list (string * json)).

(** [d[k] = v]: a present key keeps its place, a new key goes last. *)
Fixpoint dict_set (k : string) (v : json) (d : pydict) : pydict :=
  match d with
  | [] => [(k, v)]
  | (k', v') :: d' =>
      if String.eqb k k' then (k, v) :: d' else (k', v') :: dict_set k v d'
  end.

(** [d.pop(k, None)], the dictionary that is left. *)
Definition dict_pop (k : string) (d : pydict) : pydict :=
  filter (λ kv, kv.1 ≠ k) d.

(** [frozenset(d.keys())] *)
Definition dict_keys (d : pydict) : gset string := list_to_set d.*1.

Definition is_None (v : json) : bool :=
  match v with JNull => true | _ => false end.

(** Truth value of an object in a condition. *)
Definition truthy (v : json) : bool :=
  match v with
  | JNull => false
  | JBool b => b
  | JInt n => negb (n =? 0)%Z
  | JFloat r => negb (String.eqb r "0.0" || String.eqb r "-0.0")
  | JStr s => negb (String.eqb s EmptyString)
  | JList l => negb (Nat.eqb (length l) 0)
  | JDict d => negb (Nat.eqb (length d) 0)
  | JObject _ truth => truth
  | JCycle _ => true
  end.

(** ** UUIDs *)

(** A [uuid.UUID] is its 128-bit integer.  [UUID_str] is [str(u)];
    [UUID_parse] is [uuid.UUID(hex)] on a string, [None] standing for the
    [ValueError] of a badly formed one.  Both belong to the Python standard
    library and are taken as given. *)
Abbreviation UUID := N.

Class UuidText := {
  UUID_str : UUID → string;
  UUID_parse : string → option UUID;
}.

(** [sys_uuid.UUID(v)] on an attribute value. *)
Definition UUID_of `{UuidText} (v : json) : result UUID :=
  match v with
  | JStr s =>
      match UUID_parse s with
      | Some u => Ok u
      | None => Raise (ValueError "badly formed hexadecimal UUID string")
      end
  | JNull =>
      Raise (TypeError "one of the hex, bytes, bytes_le, fields, or int arguments must be given")
  | _ => Raise (TypeError "UUID hex is not a string")
  end.

(** ** Resources (the data model of [gcl_sdk.agents.universal.dm.models]) *)

(** The base shape of a resource: identity, kind, attribute mapping and the
    names of the attributes the agent owns. *)
Record Resource := {
  uuid : UUID;
  kind : string;
  value : pydict;
  target_fields : gset string;
}.

(** [storage_base.TargetFieldItem]: local bookkeeping, keyed by kind and
    uuid. *)
Record TargetFieldItem := {
  item_kind : string;
  item_uuid : UUID;
  fields : gset string;
}.

(** A [models.ResourceMixin] object returned by a backend client: its
    resource identity, its full simple view and the attribute names
    [get_resource_ignore_fields()] lists. *)
Record ResourceMixin := {
  get_resource_uuid : UUID;
  simple_view : pydict;
  get_resource_ignore_fields : list string;
}.

(** [model.dump_to_simple_view(skip=...)] *)
Definition dump_to_simple_view (m : ResourceMixin) (skip : list string) : pydict :=
  filter (λ kv, kv.1 ∉ skip) (simple_view m).

(** The constructors of [models.Resource] the driver calls; [dm/models.py]
    is not part of the sources at hand, so they are taken as given.  Both
    may raise (they parse the identity and hash the value). *)
Class ResourceModels := {
  Resource_from_value : pydict → string → gset string → result Resource;
  Resource_replace_value : Resource → pydict → gset string → result Resource;
}.

(** What a backend client hands back for one resource: a typed resource, a
    raw attribute mapping, or a model object. *)
Inductive backend_item :=
| ItemResource (r : Resource)
| ItemDict (d : pydict)
| ItemModel (m : ResourceMixin).

(** ** [ResourceTransformer] *)

Record ResourceTransformer := {
  ignore_null_attributes : bool;
  attributes : option (list string);
}.

Definition transform (t : ResourceTransformer) (view : pydict) : pydict :=
  if negb (ignore_null_attributes t) then view
  else
    match attributes t with
    | None => filter (λ kv, is_None kv.2 = false) view
    | Some attrs =>
        filter (λ kv, (is_None kv.2 && bool_decide (kv.1 ∈ attrs)) = false) view
    end.

(** ** Target Field Store *)

Abbreviation store := (gmap (string * UUID) (gset string)).

Module storage.
(** Modelled from the spec: [AbstractTargetFieldsStorage.get]
    ([gcl_sdk/agents/universal/storage] is not part of the sources at
    hand).  Section 4.2: the store is keyed by (kind, uuid); [get] fails
    with [ItemNotFound] if absent. *)
Definition get (k : string) (u : UUID) (st : store) : result TargetFieldItem :=
  match st !! (k, u) with
  | Some fs => Ok {| item_kind := k; item_uuid := u; fields := fs |}
  | None => Raise (StorageExc storage_exc.ItemNotFound)
  end.

(** Modelled from the spec: [AbstractTargetFieldsStorage.create].
    Section 4.2: with [force] it overwrites unconditionally; without it
    fails with [ItemAlreadyExists] if present. *)
Definition create (i : TargetFieldItem) (force : bool) (st : store) : result store :=
  if force then Ok (<[(item_kind i, item_uuid i) := fields i]> st)
  else
    match st !! (item_kind i, item_uuid i) with
    | Some _ => Raise (StorageExc storage_exc.ItemAlreadyExists)
    | None => Ok (<[(item_kind i, item_uuid i) := fields i]> st)
    end.

(** Modelled from the spec: [AbstractTargetFieldsStorage.update].
    Section 4.2: [update] fails if absent; the store-level errors of
    section 7 are [ItemNotFound] and [ItemAlreadyExists]. *)
Definition update (i : TargetFieldItem) (st : store) : result store :=
  match st !! (item_kind i, item_uuid i) with
  | Some _ => Ok (<[(item_kind i, item_uuid i) := fields i]> st)
  | None => Raise (StorageExc storage_exc.ItemNotFound)
  end.

(** Modelled from the spec: [AbstractTargetFieldsStorage.delete].
    Section 4.2: with [force] it never fails, even if absent. *)
Definition delete (i : TargetFieldItem) (force : bool) (st : store) : result store :=
  match st !! (item_kind i, item_uuid i) with
  | Some _ => Ok (base.delete (item_kind i, item_uuid i) st)
  | None => if force then Ok st else Raise (StorageExc storage_exc.ItemNotFound)
  end.

(** Modelled from the spec: [AbstractTargetFieldsStorage.list].
    Section 4.2: [list(kind)] returns all entries. *)
Definition list (k : string) (st : store) : list TargetFieldItem :=
  omap (λ e, if decide (e.1.1 = k)
             then Some {| item_kind := e.1.1; item_uuid := e.1.2; fields := e.2 |}
             else None)
       (map_to_list st).
End storage.

(** ** Backend clients *)

(** A call that receives the caller's resource object returns, next to its
    result, the state it leaves and the content of that object's [value]
    dictionary when the call ends: the dictionary is shared between the
    caller and the callee, and a callee may write to it. *)
Record reply (S A : Type) := {
  r_result : result A;
  r_state : S;
  r_value : pydict;
}.
Arguments r_result {S A} _.
Arguments r_state {S A} _.
Arguments r_value {S A} _.

(** The resource object once its [value] dictionary holds [v]. *)
Definition with_value (resource : Resource) (v : pydict) : Resource :=
  {| uuid := uuid resource; kind := kind resource; value := v;
     target_fields := target_fields resource |}.

(** [client_base.AbstractBackendClient] over a backend state [B]. *)
Class BackendClient (B : Type) := {
  client_get : Resource → B → reply B backend_item;
  client_create : Resource → B → reply B backend_item;
  client_update : Resource → B → reply B backend_item;
  client_list : string → B → result (list backend_item) * B;
  client_delete : Resource → B → reply B unit;
}.


Definition fail {S A} (e : exn) (s : S) (resource : Resource) : reply S A :=
  {| r_result := Raise e; r_state := s; r_value := value resource |}.

(** ** [GCRestApiBackendClient] *)

(** The calls made through the HTTP collection client, with their
    arguments. *)
Inductive http_call :=
| HttpGet (url : string) (u : UUID)
| HttpCreate (url : string) (data : pydict)
| HttpUpdate (url : string) (u : UUID) (kwargs : pydict)
| HttpFilter (url : string) (project_id : string)
| HttpDelete (url : string) (u : UUID).

(** [http.CollectionBaseClient] over a remote state [H].  The client
    serializes what it is given and does not write to it. *)
Class CollectionBaseClient (H : Type) := {
  http_get : string → UUID → H → result pydict * H;
  http_create : string → pydict → H → result pydict * H;
  http_update : string → UUID → pydict → H → result pydict * H;
  http_filter : string → string → H → result (list pydict) * H;
  http_delete : string → UUID → H → result unit * H;
}.

Record rest_state (H : Type) := {
  remote : H;
  calls : list http_call;
}.
Arguments remote {H} _.
Arguments calls {H} _.

Record GCRestApiBackendClient := {
  collection_map : gmap string string;
  project_id : string;
}.

(** [v != s] for an attribute value and a [str]. *)
Definition ne_str (v : json) (s : string) : bool :=
  match v with
  | JStr x => negb (String.eqb x s)
  | _ => true
  end.

Module rest.
Section rest.
Context {uuid_text : UuidText} {H : Type} {http : CollectionBaseClient H}.
Variable self : GCRestApiBackendClient.

(** [self._collection_map[kind]] *)
Definition collection_url (k : string) : result string :=
  match collection_map self !! k with
  | Some url => Ok url
  | None => Raise (KeyError k)
  end.

Definition called (c : http_call) (h : H) (s : rest_state H) : rest_state H :=
  {| remote := h; calls := calls s ++ [c] |}.

Definition get (resource : Resource) (s : rest_state H)
  : reply (rest_state H) pydict :=
  match collection_url (kind resource) with
  | Raise e => fail e s resource
  | Ok url =>
      let '(r, h) := http_get url (uuid resource) (remote s) in
      {| r_result :=
           match r with
           | Raise (BazookaExc bazooka_exc.NotFoundError) =>
               Raise (ClientExc client_exc.ResourceNotFound)
           | _ => r
           end;
         r_state := called (HttpGet url (uuid resource)) h s;
         r_value := value resource |}
  end.

Definition create (resource : Resource) (s : rest_state H)
  : reply (rest_state H) pydict :=
  match collection_url (kind resource) with
  | Raise e => fail e s resource
  | Ok url =>
      (* Inject mandatory fields *)
      let resource :=
        with_value resource
          (dict_set "uuid" (JStr (UUID_str (uuid resource))) (value resource)) in
      let res_project_id := default JNull (assoc "project_id" (value resource)) in
      if truthy res_project_id && ne_str res_project_id (project_id self)
      then fail (ClientExc client_exc.ResourceProjectMismatch) s resource
      else
        let '(r, h) := http_create url (value resource) (remote s) in
        {| r_result :=
             match r with
             | Raise (BazookaExc bazooka_exc.ConflictError) =>
                 Raise (ClientExc client_exc.ResourceAlreadyExists)
             | _ => r
             end;
           r_state := called (HttpCreate url (value resource)) h s;
           r_value := value resource |}
  end.

Definition update (resource : Resource) (s : rest_state H)
  : reply (rest_state H) pydict :=
  match collection_url (kind resource) with
  | Raise e => fail e s resource
  | Ok url =>
      (* value = resource.value.copy(), then the read-only fields go *)
      let value' := value resource in
      let value' := dict_pop "created_at" value' in
      let value' := dict_pop "updated_at" value' in
      let value' := dict_pop "project_id" value' in
      let value' := dict_pop "uuid" value' in
      let '(r, h) := http_update url (uuid resource) value' (remote s) in
      {| r_result :=
           match r with
           | Raise (BazookaExc bazooka_exc.NotFoundError) =>
               Raise (ClientExc client_exc.ResourceNotFound)
           | _ => r
           end;
         r_state := called (HttpUpdate url (uuid resource) value') h s;
         r_value := value resource |}
  end.

Definition list (k : string) (s : rest_state H)
  : result (list pydict) * rest_state H :=
  match collection_url k with
  | Raise e => (Raise e, s)
  | Ok url =>
      let '(r, h) := http_filter url (project_id self) (remote s) in
      (r, called (HttpFilter url (project_id self)) h s)
  end.

Definition delete (resource : Resource) (s : rest_state H)
  : reply (rest_state H) unit :=
  match collection_url (kind resource) with
  | Raise e => fail e s resource
  | Ok url =>
      let '(r, h) := http_delete url (uuid resource) (remote s) in
      {| r_result :=
           match r with
           | Raise (BazookaExc bazooka_exc.NotFoundError) =>
               Raise (ClientExc client_exc.ResourceNotFound)
           | _ => r
           end;
         r_state := called (HttpDelete url (uuid resource)) h s;
         r_value := value resource |}
  end.
End rest.
End rest.

Definition as_item {S} (rp : reply S pydict) : reply S backend_item :=
  {| r_result := d <-- r_result rp ;; Ok (ItemDict d);
     r_state := r_state rp; r_value := r_value rp |}.

(** [GCRestApiBackendClient] as a backend client: it answers with raw
    attribute mappings. *)
Definition rest_client {uuid_text : UuidText} {H : Type} {http : CollectionBaseClient H}
    (self : GCRestApiBackendClient) : BackendClient (rest_state H) :=
  {| client_get := λ r s, as_item (rest.get self r s);
     client_create := λ r s, as_item (rest.create self r s);
     client_update := λ r s, as_item (rest.update self r s);
     client_list := λ k s,
       let '(r, s') := rest.list self k s in
       (l <-- r ;; Ok (ItemDict <$> l), s');
     client_delete := λ r s, rest.delete self r s |}.


(** ** [DirectAgentDriver] *)

(** The calls the driver makes to its two collaborators, with their
    arguments. *)
Inductive event :=
| StorageGet (k : string) (u : UUID)
| StorageList (k : string)
| StorageCreate (i : TargetFieldItem) (force : bool)
| StorageUpdate (i : TargetFieldItem)
| StorageDelete (i : TargetFieldItem) (force : bool)
| ClientGet (r : Resource)
| ClientList (k : string)
| ClientCreate (r : Resource)
| ClientUpdate (r : Resource)
| ClientDelete (r : Resource).

(** What a reconciliation pass works on: the working copy of the Target
    Field Store, the backend behind the client, and the calls made so far,
    oldest first. *)
Record pass (B : Type) := {
  storage_of : store;
  backend : B;
  log : list event;
}.
Arguments storage_of {B} _.
Arguments backend {B} _.
Arguments log {B} _.

(** The driver's configuration: the capabilities [get_capabilities()]
    answers and the transformers per kind. *)
Record DirectAgentDriver := {
  get_capabilities : gset string;
  _transformer_map : gmap string ResourceTransformer;
}.

Module direct.
Section direct.
Context {uuid_text : UuidText} {models : ResourceModels}
        {B : Type} {_client : BackendClient B}.
Variable self : DirectAgentDriver.

Definition logged (ev : event) (st : store) (b : B) (w : pass B) : pass B :=
  {| storage_of := st; backend := b; log := log w ++ [ev] |}.

(** Apply additional transformations if needed. *)
Definition transformed (k : string) (v : pydict) : pydict :=
  match _transformer_map self !! k with
  | Some t => transform t v
  | None => v
  end.

Definition _model_to_resource (k : string) (model : ResourceMixin)
    (target_fields : gset string) : result Resource :=
  let value := dump_to_simple_view model (get_resource_ignore_fields model) in
  let value := transformed k value in
  Resource_from_value value k target_fields.

Definition _prepare_res_response (origin_resource : Resource)
    (value : backend_item) (target_fields : gset string) : result Resource :=
  match value with
  | ItemResource r => Ok r
  | ItemDict d =>
      let d := transformed (kind origin_resource) d in
      Resource_replace_value origin_resource d target_fields
  | ItemModel m => _model_to_resource (kind origin_resource) m target_fields
  end.

Definition _validate (resource : Resource) : result unit :=
  if decide (kind resource ∈ get_capabilities self) then Ok ()
  else Raise (TypeError ("Unsupported capability " ++ kind resource)).

Definition get (resource : Resource) (w : pass B) : reply (pass B) Resource :=
  match _validate resource with
  | Raise e => fail e w resource
  | Ok _ =>
      (* except (client_exc.ResourceNotFound, storage_exc.ItemNotFound) *)
      let except e :=
        match e with
        | ClientExc client_exc.ResourceNotFound
        | StorageExc storage_exc.ItemNotFound =>
            DriverExc driver_exc.ResourceNotFound
        | _ => e
        end in
      let w := logged (StorageGet (kind resource) (uuid resource))
                 (storage_of w) (backend w) w in
      match storage.get (kind resource) (uuid resource) (storage_of w) with
      | Raise e => fail (except e) w resource
      | Ok target_fields =>
          let c := client_get resource (backend w) in
          let w := logged (ClientGet resource) (storage_of w) (r_state c) w in
          let resource := with_value resource (r_value c) in
          match r_result c with
          | Raise e => fail (except e) w resource
          | Ok value' =>
              {| r_result :=
                   _prepare_res_response resource value' (fields target_fields);
                 r_state := w; r_value := value resource |}
          end
      end
  end.

(** The uuid a client's item reports, which is the key [list] files it
    under: [i.uuid], [UUID(i["uuid"])] or [i.get_resource_uuid()]. *)
Definition reported_uuid (i : backend_item) : option UUID :=
  match i with
  | ItemResource r => Some (uuid r)
  | ItemDict d =>
      match assoc "uuid" d with
      | Some v => match UUID_of v with Ok u => Some u | Raise _ => None end
      | None => None
      end
  | ItemModel m => Some (get_resource_uuid m)
  end.

(** The body of the loop over the client's items. *)
Definition collect_item (capability : string)
    (storage_items : gmap UUID TargetFieldItem) (i : backend_item)
    (client_resources : gmap UUID Resource) : result (gmap UUID Resource) :=
  match i with
  | ItemResource r => Ok (<[uuid r := r]> client_resources)
  | ItemDict d =>
      match assoc "uuid" d with
      | None => Raise (KeyError "uuid")
      | Some v =>
          u <-- UUID_of v ;;
          match storage_items !! u with
          | Some storage_item =>
              let d := transformed capability d in
              r <-- Resource_from_value d capability (fields storage_item) ;;
              Ok (<[u := r]> client_resources)
          | None => (* Missing storage item *) Ok client_resources
          end
      end
  | ItemModel m =>
      let u := get_resource_uuid m in
      match storage_items !! u with
      | Some storage_item =>
          r <-- _model_to_resource capability m (fields storage_item) ;;
          Ok (<[u := r]> client_resources)
      | None => (* Missing storage item *) Ok client_resources
      end
  end.

Fixpoint collect (capability : string)
    (storage_items : gmap UUID TargetFieldItem) (items : list backend_item)
    (client_resources : gmap UUID Resource) : result (gmap UUID Resource) :=
  match items with
  | [] => Ok client_resources
  | i :: items' =>
      client_resources <--
        collect_item capability storage_items i client_resources ;;
      collect capability storage_items items' client_resources
  end.

(** [{i.uuid: i for i in items}] *)
Definition by_uuid (items : list TargetFieldItem) : gmap UUID TargetFieldItem :=
  foldl (λ m i, <[item_uuid i := i]> m) ∅ items.

(** [list], with each resource next to the uuid it is filed under.  The
    order in which Python iterates over the intersection of the two key
    sets is unspecified; here it is the order of [elements]. *)
Definition list_entries (capability : string) (w : pass B)
  : result (list (UUID * Resource)) * pass B :=
  if decide (capability ∈ get_capabilities self) then
    let storage_items := by_uuid (storage.list capability (storage_of w)) in
    let w := logged (StorageList capability) (storage_of w) (backend w) w in
    let '(r, b) := client_list capability (backend w) in
    let w := logged (ClientList capability) (storage_of w) b w in
    match r with
    | Raise e => (Raise e, w)
    | Ok items =>
        match collect capability storage_items items ∅ with
        | Raise e => (Raise e, w)
        | Ok client_resources =>
            (Ok (omap (λ u, pair u <$> client_resources !! u)
                      (elements (dom storage_items ∩ dom client_resources))),
             w)
        end
    end
  else (Raise (TypeError ("Unsupported capability " ++ capability)), w).

Definition list (capability : string) (w : pass B)
  : result (list Resource) * pass B :=
  let '(r, w) := list_entries capability w in
  (entries <-- r ;; Ok entries.*2, w).

Definition create (resource : Resource) (w : pass B) : reply (pass B) Resource :=
  match _validate resource with
  | Raise e => fail e w resource
  | Ok _ =>
      (* Figure out the target fields to correct hash calculation *)
      let target_fields := dict_keys (value resource) in
      let storage_item :=
        {| item_kind := kind resource; item_uuid := uuid resource;
           fields := target_fields |} in
      match storage.create storage_item true (storage_of w) with
      | Raise e =>
          fail e (logged (StorageCreate storage_item true)
                    (storage_of w) (backend w) w) resource
      | Ok st =>
          let w := logged (StorageCreate storage_item true) st (backend w) w in
          let c := client_create resource (backend w) in
          let w := logged (ClientCreate resource) (storage_of w) (r_state c) w in
          let resource := with_value resource (r_value c) in
          match r_result c with
          | Raise (ClientExc client_exc.ResourceAlreadyExists) =>
              fail (DriverExc driver_exc.ResourceAlreadyExists) w resource
          | Raise e => fail e w resource
          | Ok resp =>
              {| r_result := _prepare_res_response resource resp target_fields;
                 r_state := w; r_value := value resource |}
          end
      end
  end.

Definition update (resource : Resource) (w : pass B) : reply (pass B) Resource :=
  match _validate resource with
  | Raise e => fail e w resource
  | Ok _ =>
      (* Figure out the target fields to correct hash calculation *)
      let target_fields := dict_keys (value resource) in
      let storage_item :=
        {| item_kind := kind resource; item_uuid := uuid resource;
           fields := target_fields |} in
      (* except client_exc.ResourceNotFound *)
      let except e :=
        match e with
        | ClientExc client_exc.ResourceNotFound =>
            DriverExc driver_exc.ResourceNotFound
        | _ => e
        end in
      let c := client_update resource (backend w) in
      let w := logged (ClientUpdate resource) (storage_of w) (r_state c) w in
      let resource := with_value resource (r_value c) in
      match r_result c with
      | Raise e => fail (except e) w resource
      | Ok resp =>
          match storage.update storage_item (storage_of w) with
          | Raise e =>
              fail (except e)
                (logged (StorageUpdate storage_item) (storage_of w) (backend w) w)
                resource
          | Ok st =>
              let w := logged (StorageUpdate storage_item) st (backend w) w in
              {| r_result := _prepare_res_response resource resp target_fields;
                 r_state := w; r_value := value resource |}
          end
      end
  end.

Definition delete (resource : Resource) (w : pass B) : reply (pass B) unit :=
  match _validate resource with
  | Raise e => fail e w resource
  | Ok _ =>
      let c := client_delete resource (backend w) in
      let w := logged (ClientDelete resource) (storage_of w) (r_state c) w in
      let resource := with_value resource (r_value c) in
      match r_result c with
      | Raise (ClientExc client_exc.ResourceNotFound) | Ok _ =>
          let storage_item :=
            {| item_kind := kind resource; item_uuid := uuid resource;
               fields := ∅ |} in
          match storage.delete storage_item true (storage_of w) with
          | Raise e =>
              fail e (logged (StorageDelete storage_item true)
                        (storage_of w) (backend w) w) resource
          | Ok st =>
              {| r_result := Ok ();
                 r_state := logged (StorageDelete storage_item true) st (backend w) w;
                 r_value := value resource |}
          end
      | Raise e => fail e w resource
      end
  end.
End direct.
End direct.


(** ** Delta Payload Protocol *)

Module payload.
(** The assembled assignment of an agent: [capabilities] maps a kind and
    [facts] maps a name to [{resources: [...]}]. *)
Record Payload := {
  capabilities : pydict;
  facts : pydict;
}.

Record Response := {
  resp_capabilities : pydict;
  resp_facts : pydict;
  resp_hash : string;
}.

Definition to_json (p : Payload) : json :=
  JDict [("capabilities", JDict (capabilities p)); ("facts", JDict (facts p))].

(** Modelled from the spec: the [get_payload] action of the orchestrator
    API (its controller and the payload model are not part of the sources
    at hand; only [test_orch_api.py] is).  Section 4.7: the assembled
    payload is hashed; if the agent-supplied hash matches the freshly
    computed one the response is [{capabilities: {}, facts: {}, hash}],
    otherwise it carries the full payload and the new hash.  Section 9:
    the schema version has no effect on the payload. *)
Definition get_payload `{Interpreter} `{HashMethod} (assembled : Payload)
    (version : Z) (last_known_hash : string) : result Response :=
  h <-- calculate_hash (to_json assembled) ;;
  if String.eqb last_known_hash h
  then Ok {| resp_capabilities := []; resp_facts := []; resp_hash := h |}
  else Ok {| resp_capabilities := capabilities assembled;
             resp_facts := facts assembled; resp_hash := h |}.
End payload.

(** ** Dependency tracking: migration 0004 *)

Module migration_0004.
Inductive sql_type :=
| SqlUUID | SqlVarchar (n : nat) | SqlTimestamp | SqlBoolean.

(** The columns of [CREATE TABLE ua_tracked_resources]. *)
Definition ua_tracked_resources_columns : list (string * sql_type) :=
  [("uuid", SqlUUID); ("watcher", SqlUUID); ("target", SqlUUID);
   ("watcher_kind", SqlVarchar 64); ("target_kind", SqlVarchar 64);
   ("hash", SqlVarchar 256); ("full_hash", SqlVarchar 256);
   ("created_at", SqlTimestamp); ("updated_at", SqlTimestamp)].

(** A row of [ua_tracked_resources]; [watcher] and [target] may be
    NULL. *)
Record tracked_row := {
  tracked_uuid : UUID;
  watcher : option UUID;
  target : option UUID;
  watcher_kind : string;
  target_kind : string;
  tracked_hash : string;
  tracked_full_hash : string;
  created_at : Z;
  updated_at : Z;
}.

(** The columns of [ua_target_resources] and [ua_actual_resources] the
    view reads.  [res_uuid] is the column the foreign keys of
    [ua_tracked_resources] reference. *)
Record target_row := {
  utr_uuid : UUID;
  utr_res_uuid : option UUID;
  utr_kind : string;
  utr_full_hash : string;
}.

Record actual_row := {
  uar_uuid : UUID;
  uar_res_uuid : option UUID;
}.

(** A row of [ua_outdated_tracked_full_hash_instances_view]. *)
Record outdated_row := {
  uuid : UUID;
  tracked_resource : UUID;
  out_watcher_kind : string;
  full_hash : string;
  actual_full_hash : string;
  actual_resource : option UUID;
}.

(** SQL [a = b] as a join or filter condition: NULL never matches. *)
Definition sql_eq (a b : option UUID) : bool :=
  match a, b with
  | Some x, Some y => N.eqb x y
  | _, _ => false
  end.

Definition select (tracked : tracked_row) (utr : target_row)
    (uar : option actual_row) : outdated_row :=
  {| uuid := tracked_uuid tracked;
     tracked_resource := tracked_uuid tracked;
     out_watcher_kind := watcher_kind tracked;
     full_hash := tracked_full_hash tracked;
     actual_full_hash := utr_full_hash utr;
     actual_resource := uar_uuid <$> uar |}.

(** [x LEFT JOIN ua_actual_resources uar ON tracked.target = uar.res_uuid]
    for one row [x] of the left side. *)
Definition left_join_uar (tracked : tracked_row) (uars : list actual_row)
  : list (option actual_row) :=
  match filter (λ uar, sql_eq (target tracked) (uar_res_uuid uar) = true) uars with
  | [] => [None]
  | matches => Some <$> matches
  end.

(** The view: tracked JOIN utr ON tracked.target = utr.res_uuid
    LEFT JOIN uar ... WHERE tracked.full_hash != utr.full_hash. *)
Definition ua_outdated_tracked_full_hash_instances_view
    (ua_tracked_resources : list tracked_row)
    (ua_target_resources : list target_row)
    (ua_actual_resources : list actual_row) : list outdated_row :=
  tracked ← ua_tracked_resources;
  utr ← filter (λ utr, sql_eq (target tracked) (utr_res_uuid utr) = true)
               ua_target_resources;
  uar ← left_join_uar tracked ua_actual_resources;
  if negb (String.eqb (tracked_full_hash tracked) (utr_full_hash utr))
  then [select tracked utr uar] else [].

(** A tracked resource is reported stale when the view has a row for
    it. *)
Definition reported_stale (tracked : tracked_row)
    (ua_tracked_resources : list tracked_row)
    (ua_target_resources : list target_row)
    (ua_actual_resources : list actual_row) : bool :=
  bool_decide (tracked_uuid tracked ∈
    uuid <$> ua_outdated_tracked_full_hash_instances_view
               ua_tracked_resources ua_target_resources ua_actual_resources).
End migration_0004.

(** ** Instances for running the model *)

(** Modelled from the spec: the remote resource collections behind the HTTP
    client ([gcl_sdk/agents/universal/clients/http] and the server are not
    part of the sources at hand).  Section 4.3: [get] fails if the resource
    is absent remotely, [create] fails on a remote conflict, [update] and
    [delete] fail if absent, [list] returns every resource in the caller's
    ownership scope. *)
Module memory_http.
Abbreviation collections := (gmap (string * UUID) pydict).

(** Modelled from the spec: section 4.3, a resource absent remotely is
    not found. *)
Definition get (url : string) (u : UUID) (h : collections)
  : result pydict * collections :=
  match h !! (url, u) with
  | Some d => (Ok d, h)
  | None => (Raise (BazookaExc bazooka_exc.NotFoundError), h)
  end.

(** Modelled from the spec: section 4.3, a resource that exists remotely
    is a conflict. *)
Definition create {uuid_text : UuidText} (url : string) (data : pydict)
    (h : collections) : result pydict * collections :=
  match assoc "uuid" data with
  | Some v =>
      match UUID_of v with
      | Ok u =>
          match h !! (url, u) with
          | Some _ => (Raise (BazookaExc bazooka_exc.ConflictError), h)
          | None => (Ok data, <[(url, u) := data]> h)
          end
      | Raise _ => (Raise (BazookaExc (bazooka_exc.OtherHTTPError 400)), h)
      end
  | None => (Raise (BazookaExc (bazooka_exc.OtherHTTPError 400)), h)
  end.

(** Modelled from the spec: section 4.3, a resource absent remotely is
    not found; the attributes given replace the stored ones. *)
Definition update (url : string) (u : UUID) (kwargs : pydict)
    (h : collections) : result pydict * collections :=
  match h !! (url, u) with
  | Some d =>
      let d' := foldl (λ d kv, dict_set kv.1 kv.2 d) d kwargs in
      (Ok d', <[(url, u) := d']> h)
  | None => (Raise (BazookaExc bazooka_exc.NotFoundError), h)
  end.

Definition in_project (project_id : string) (d : pydict) : bool :=
  match assoc "project_id" d with
  | Some (JStr p) => String.eqb p project_id
  | _ => false
  end.

(** Modelled from the spec: section 4.3, every resource of the collection
    in the ownership scope. *)
Definition filter (url project_id : string) (h : collections)
  : result (list pydict) * collections :=
  (Ok (omap (λ e, if String.eqb e.1.1 url && in_project project_id e.2
                  then Some e.2 else None)
            (map_to_list h)), h).

(** Modelled from the spec: section 4.3, a resource absent remotely is
    not found. *)
Definition delete (url : string) (u : UUID) (h : collections)
  : result unit * collections :=
  match h !! (url, u) with
  | Some _ => (Ok (), base.delete (url, u) h)
  | None => (Raise (BazookaExc bazooka_exc.NotFoundError), h)
  end.

Definition client {uuid_text : UuidText} : CollectionBaseClient collections :=
  {| http_get := get; http_create := create; http_update := update;
     http_filter := filter; http_delete := delete |}.
End memory_http.

Module examples.
(** The text of a UUID: 32 hexadecimal digits in groups of 8-4-4-4-12. *)
Fixpoint hex_digits (k : nat) (n : N) (acc : string) : string :=
  match k with
  | O => acc
  | S k' => hex_digits k' (n / 16)%N (String (hex_digit (n mod 16)) acc)
  end.

Definition canonical_str (u : UUID) : string :=
  let h := hex_digits 32 u EmptyString in
  substring 0 8 h ++ "-" ++ substring 8 4 h ++ "-" ++ substring 12 4 h
    ++ "-" ++ substring 16 4 h ++ "-" ++ substring 20 12 h.

Definition hex_value (c : ascii) : option N :=
  let n := N_of_ascii c in
  if ((48 <=? n) && (n <=? 57))%N then Some (n - 48)%N
  else if ((97 <=? n) && (n <=? 102))%N then Some (n - 87)%N
  else if ((65 <=? n) && (n <=? 70))%N then Some (n - 55)%N
  else None.

Fixpoint parse_hex (s : string) (acc : N) : option N :=
  match s with
  | EmptyString => Some acc
  | String c s' =>
      match hex_value c with
      | Some d => parse_hex s' (16 * acc + d)%N
      | None => None
      end
  end.

Fixpoint without_hyphens (s : string) : string :=
  match s with
  | EmptyString => EmptyString
  | String c s' =>
      if (N_of_ascii c =? 45)%N then without_hyphens s'
      else String c (without_hyphens s')
  end.

(** Parses the canonical text (hyphens optional); the other spellings
    [uuid.UUID] accepts are rejected here. *)
Definition canonical_parse (s : string) : option UUID :=
  let h := without_hyphens s in
  if Nat.eqb (String.length h) 32 then parse_hex h 0%N else None.

Definition canonical_uuid_text : UuidText :=
  {| UUID_str := canonical_str; UUID_parse := canonical_parse |}.

(** Resource constructors that keep the four base attributes only: the
    identity is read from the value's [uuid] attribute by [from_value] and
    kept by [replace_value]. *)
Definition base_models {uuid_text : UuidText} : ResourceModels :=
  {| Resource_from_value := λ v k tf,
       match assoc "uuid" v with
       | None => Raise (KeyError "uuid")
       | Some x =>
           u <-- UUID_of x ;;
           Ok {| uuid := u; kind := k; value := v; target_fields := tf |}
       end;
     Resource_replace_value := λ origin v tf,
       Ok {| uuid := uuid origin; kind := kind origin; value := v;
             target_fields := tf |} |}.
End examples.


Module scenario.
Import examples.
#[local] Existing Instance canonical_uuid_text.
#[local] Existing Instance base_models.
#[local] Existing Instance memory_http.client.

Definition nodes_api : GCRestApiBackendClient :=
  {| collection_map := {[ "node" := "/v1/nodes/" ]};
     project_id := "00000000-0000-0000-0000-00000000000a" |}.

Definition driver : DirectAgentDriver :=
  {| get_capabilities := {[ "node" ]}; _transformer_map := ∅ |}.

Definition node7 : Resource :=
  {| uuid := 7; kind := "node";
     value := [("name", JStr "n7"); ("cores", JInt 4)];
     target_fields := ∅ |}.

Definition node7_remote : pydict :=
  [("uuid", JStr (canonical_str 7)); ("name", JStr "old"); ("cores", JInt 2);
   ("project_id", JStr "00000000-0000-0000-0000-00000000000a")].

Definition fresh : pass (rest_state memory_http.collections) :=
  {| storage_of := ∅; backend := {| remote := ∅; calls := [] |}; log := [] |}.

(** The backend already holds node 7; the local store knows nothing. *)
Definition taken : pass (rest_state memory_http.collections) :=
  {| storage_of := ∅;
     backend := {| remote := {[ ("/v1/nodes/", 7%N) := node7_remote ]};
                   calls := [] |};
     log := [] |}.

(** The backend holds node 7 and the local store has its entry. *)
Definition synced : pass (rest_state memory_http.collections) :=
  {| storage_of := {[ ("node", 7%N) := {[ "name"; "cores" ]} ]};
     backend := {| remote := {[ ("/v1/nodes/", 7%N) := node7_remote ]};
                   calls := [] |};
     log := [] |}.

(** The local store has an entry for node 7; the backend holds nothing. *)
Definition orphan : pass (rest_state memory_http.collections) :=
  {| storage_of := {[ ("node", 7%N) := {[ "name"; "cores" ]} ]};
     backend := {| remote := ∅; calls := [] |};
     log := [] |}.

(** A node that names another project than the client's. *)
Definition node8_foreign : Resource :=
  {| uuid := 8; kind := "node";
     value := [("name", JStr "n8");
               ("project_id", JStr "00000000-0000-0000-0000-00000000000b")];
     target_fields := ∅ |}.

Definition assigned : payload.Payload :=
  {| payload.capabilities :=
       [("node", JDict [("resources", JList [JDict node7_remote])])];
     payload.facts := [("node", JDict [("resources", JList [])])] |}.

(** A target resource, and a tracked resource that watches it with an
    outdated snapshot. *)
Definition target11 : migration_0004.target_row :=
  {| migration_0004.utr_uuid := 1; migration_0004.utr_res_uuid := Some 11%N;
     migration_0004.utr_kind := "node";
     migration_0004.utr_full_hash := "bbbb" |}.

Definition tracked5 : migration_0004.tracked_row :=
  {| migration_0004.tracked_uuid := 5; migration_0004.watcher := Some 12%N;
     migration_0004.target := Some 11%N;
     migration_0004.watcher_kind := "disk"; migration_0004.target_kind := "node";
     migration_0004.tracked_hash := "a"; migration_0004.tracked_full_hash := "aaaa";
     migration_0004.created_at := 0%Z; migration_0004.updated_at := 0%Z |}.

Definition client : BackendClient (rest_state memory_http.collections) :=
  rest_client nodes_api.
#[local] Existing Instance client.

Definition get := direct.get driver.
Definition list := direct.list driver.
Definition list_entries := direct.list_entries driver.
Definition create := direct.create driver.
Definition update := direct.update driver.
Definition delete := direct.delete driver.
End scenario.

(** ** Auxiliary views of the encoder's loops *)

(** A member of a mapping with its value rendered. *)
Definition render `{Interpreter} (budget : nat) (kv : string * json)
  : string * result string :=
  (kv.1, _iterencode budget kv.2).

(** The member [kv] of one mapping has a counterpart with the same content
    in the mapping [db]. *)
Definition member_agrees (db : pydict) (kv : string * json) : bool :=
  match assoc kv.1 db with
  | Some w => same_content kv.2 w
  | None => false
  end.

(** Sample values: the same content, entered in two orders. *)
Definition sample_A : pydict :=
  [("b", JInt 1);
   ("a", JDict [("y", JNull); ("x", JList [JBool true; JStr "q"])])].
Definition sample_B : pydict :=
  [("a", JDict [("x", JList [JBool true; JStr "q"]); ("y", JNull)]);
   ("b", JInt 1)].






(** ** [ResourceTransformer.from_dict] *)

Module text.
(** [str.lower] on one code point below 256: the ASCII capitals and the
    Latin-1 capitals (without the multiplication sign) move up by 32. *)
Definition lower_char (c : ascii) : ascii :=
  let n := N_of_ascii c in
  if ((65 <=? n) && (n <=? 90))%N then ascii_of_N (n + 32)
  else if ((192 <=? n) && (n <=? 222) && negb (n =? 215))%N then ascii_of_N (n + 32)
  else c.

Fixpoint lower (s : string) : string :=
  match s with
  | EmptyString => EmptyString
  | String c s' => String (lower_char c) (lower s')
  end.

(** [str.isspace] on one code point below 256. *)
Definition is_space (c : ascii) : bool :=
  let n := N_of_ascii c in
  ((9 <=? n) && (n <=? 13) || (28 <=? n) && (n <=? 32)
   || (n =? 133) || (n =? 160))%N.

Fixpoint lstrip (s : string) : string :=
  match s with
  | EmptyString => EmptyString
  | String c s' => if is_space c then lstrip s' else s
  end.

Fixpoint rstrip (s : string) : string :=
  match s with
  | EmptyString => EmptyString
  | String c s' =>
      match rstrip s' with
      | EmptyString => if is_space c then EmptyString else String c EmptyString
      | r => String c r
      end
  end.

(** [s.strip()] *)
Definition strip (s : string) : string := rstrip (lstrip s).

Definition comma : ascii := ascii_of_N 44.

(** [s.split(",")]: never empty, the empty string gives one empty piece. *)
Fixpoint split_comma (s : string) : list string :=
  match s with
  | EmptyString => [EmptyString]
  | String c s' =>
      if Ascii.eqb c comma then EmptyString :: split_comma s'
      else
        match split_comma s' with
        | piece :: pieces => String c piece :: pieces
        | [] => [String c EmptyString]
        end
  end.
End text.

(** The values [from_dict] expects under its two keys; a key may be
    missing.  Values of other types are stored by the method as they are
    and are not covered. *)
Inductive flag_value :=
| FlagBool (b : bool)
| FlagStr (s : string).

Inductive attributes_value :=
| AttrsNone
| AttrsStr (s : string)
| AttrsCollection (names : list string).

Record transformer_config := {
  cfg_ignore_null_attributes : option flag_value;
  cfg_attributes : option attributes_value;
}.

(** [ResourceTransformer.from_dict].  The names built from a string are a
    [set]: each name once, in the order the set iterates in, which nothing
    in the code depends on ([transform] only asks for membership); here it
    is the order of [elements]. *)
Definition from_dict (data : transformer_config) : ResourceTransformer :=
  let ignore_null_attributes :=
    match cfg_ignore_null_attributes data with
    | None => false
    | Some (FlagBool b) => b
    | Some (FlagStr s) => String.eqb (text.lower s) "true"
    end in
  let attributes :=
    match cfg_attributes data with
    | None | Some AttrsNone => None
    | Some (AttrsStr s) =>
        Some (elements (list_to_set (text.strip <$> text.split_comma s)
                        : gset string))
    | Some (AttrsCollection names) => Some names
    end in
  {| ignore_null_attributes := ignore_null_attributes;
     attributes := attributes |}.

(** ** Where a listed resource comes from *)

(** The resource [r] filed under [u] was built from the client's item [i]:
    a typed resource is taken as it is; a raw mapping or a model is turned
    into a resource with the target fields the store holds for [u]. *)
Definition built_from {uuid_text : UuidText} {models : ResourceModels}
    (self : DirectAgentDriver) (capability : string) (st : store)
    (i : backend_item) (u : UUID) (r : Resource) : Prop :=
  direct.reported_uuid i = Some u
  ∧ match i with
    | ItemResource r' => r = r'
    | ItemDict d =>
        ∃ fs, st !! (capability, u) = Some fs
              ∧ Resource_from_value (direct.transformed self capability d)
                  capability fs = Ok r
    | ItemModel m =>
        ∃ fs, st !! (capability, u) = Some fs
              ∧ direct._model_to_resource self capability m fs = Ok r
    end.

(** ** [gcl_sdk.agents.universal.api.crypto] *)

Module crypto.
Abbreviation bytes := (list Byte.byte).

Definition KEY_SIZE : nat := 32.
Definition NONCE_SIZE : nat := 12.

(** What the functions of the module raise: the builtin [ValueError] and
    the [InvalidTag] of the cipher library. *)
Inductive error :=
| ValueError (msg : string)
| InvalidTag.

(** [aead.ChaCha20Poly1305(key)] with its [encrypt] and [decrypt], each
    given the key, the nonce, the data and the associated data. *)
Class ChaCha20Poly1305 := {
  cipher_encrypt : bytes → bytes → bytes → option bytes → error + bytes;
  cipher_decrypt : bytes → bytes → bytes → option bytes → error + bytes;
}.

(** [secrets.token_bytes(n)] over a source of randomness [E]. *)
Class Secrets (E : Type) := token_bytes : nat → E → bytes * E.

(** [base64.b64encode(b).decode()] and [base64.b64decode(s)]; [None] is
    the error of a string that is not base64. *)
Class Base64 := {
  b64encode : bytes → string;
  b64decode : string → option bytes;
}.

Definition _validate_key_and_nonce (key nonce : bytes) : error + unit :=
  if negb (Nat.eqb (length key) KEY_SIZE) then
    inl (ValueError ("Invalid key length " ++ pretty (length key)
                     ++ ". Expected " ++ pretty KEY_SIZE ++ "."))
  else if negb (Nat.eqb (length nonce) NONCE_SIZE) then
    inl (ValueError ("Invalid nonce length " ++ pretty (length nonce)
                     ++ ". Expected " ++ pretty NONCE_SIZE ++ "."))
  else inr ().

Definition generate_key {E} `{!Secrets E} (e : E) : bytes * E :=
  token_bytes KEY_SIZE e.

Definition generate_nonce {E} `{!Secrets E} (e : E) : bytes * E :=
  token_bytes NONCE_SIZE e.

Definition generate_key_base64 {E} `{!Secrets E} `{!Base64} (e : E)
  : (bytes * string) * E :=
  let '(key, e) := generate_key e in
  ((key, b64encode key), e).

Definition generate_nonce_base64 {E} `{!Secrets E} `{!Base64} (e : E)
  : (bytes * string) * E :=
  let '(nonce, e) := generate_nonce e in
  ((nonce, b64encode nonce), e).

Definition encrypt_chacha20_poly1305 `{!ChaCha20Poly1305}
    (key plaintext nonce : bytes) (associated_data : option bytes)
  : error + bytes :=
  match _validate_key_and_nonce key nonce with
  | inl e => inl e
  | inr _ => cipher_encrypt key nonce plaintext associated_data
  end.

Definition decrypt_chacha20_poly1305 `{!ChaCha20Poly1305}
    (key nonce ciphertext : bytes) (associated_data : option bytes)
  : error + bytes :=
  match _validate_key_and_nonce key nonce with
  | inl e => inl e
  | inr _ => cipher_decrypt key nonce ciphertext associated_data
  end.
End crypto.

(** ** [gcl_sdk.agents.universal.api.packers], [controllers] *)

Module packers.
Import crypto.

Definition ENCRYPTED_JSON_CONTENT_TYPE : string :=
  "application/x-genesis-agent-chacha20-poly1305-encrypted".
Definition GENESIS_NODE_UUID_HEADER : string := "X-Genesis-Node-UUID".
Definition GENESIS_NONCE_HEADER : string := "X-Genesis-Nonce".

(** What the request gives: [headers.get(name)] and [content_type]. *)
Record request := {
  headers_get : string → option string;
  content_type : option string;
}.

(** A row of [ua_node_encryption_keys] (migration 0005); timestamps are
    numbers. *)
Record NodeEncryptionKey := {
  key_uuid : UUID;
  private_key : string;
  encryption_disabled_until : Z;
}.

Inductive error :=
| ValueError (msg : string)
| RecordNotFound
| BinasciiError
| CryptoError (e : crypto.error)
| PackError.

(** The fields of an [EncryptionInformation] object; the last four cache
    what the properties compute. *)
Record EncryptionInformation := {
  _request : request;
  _node_encryption_key : option NodeEncryptionKey;
  _response_nonce : option bytes;
  _request_nonce_base64 : option string;
  _node_uuid : option UUID;
}.

Definition init (req : request) : EncryptionInformation :=
  {| _request := req; _node_encryption_key := None; _response_nonce := None;
     _request_nonce_base64 := None; _node_uuid := None |}.

(** The object and the source of randomness; a method returns its result,
    or what it raises, next to the state it leaves. *)
Definition M (E A : Type) : Type :=
  EncryptionInformation * E → (error + A) * (EncryptionInformation * E).

Definition ret {E A} (a : A) : M E A := λ s, (inr a, s).
Definition raise {E A} (e : error) : M E A := λ s, (inl e, s).
Definition mbind {E A B} (m : M E A) (k : A → M E B) : M E B :=
  λ s, match m s with
       | (inr a, s') => k a s'
       | (inl e, s') => (inl e, s')
       end.
Definition self {E} : M E EncryptionInformation := λ s, (inr s.1, s).
Definition set_self {E} (f : EncryptionInformation → EncryptionInformation)
  : M E unit := λ s, (inr (), (f s.1, s.2)).

Section methods.
Context {uuid_text : UuidText} {E : Type} {secrets : Secrets E}
        {base64 : Base64} {cipher : ChaCha20Poly1305}.
(** [models.NodeEncryptionKey.objects.get_one(filters={"uuid": ...})] reads
    the table of keys. *)
Variable keys : gmap UUID NodeEncryptionKey.

Notation "'let!' x ':=' m 'in' k" := (mbind m (λ x, k))
  (at level 10, x name, m at level 100, k at level 200).

(** A string is true in a condition when it is not empty. *)
Definition nonempty (o : option string) : option string :=
  match o with
  | Some s => if String.eqb s EmptyString then None else Some s
  | None => None
  end.

Definition node_uuid : M E UUID :=
  let! info := self in
  match _node_uuid info with
  | Some u => ret u
  | None =>
      match nonempty (headers_get (_request info) GENESIS_NODE_UUID_HEADER) with
      | Some node_uuid_str =>
          match UUID_parse node_uuid_str with
          | Some u =>
              let! _ := set_self (λ i,
                    {| _request := _request i;
                       _node_encryption_key := _node_encryption_key i;
                       _response_nonce := _response_nonce i;
                       _request_nonce_base64 := _request_nonce_base64 i;
                       _node_uuid := Some u |}) in
              ret u
          | None => raise (ValueError "badly formed hexadecimal UUID string")
          end
      | None =>
          raise (ValueError "X-Genesis-Node-UUID header is missing or invalid")
      end
  end.

Definition request_nonce_base64 : M E string :=
  let! info := self in
  match _request_nonce_base64 info with
  | Some s => ret s
  | None =>
      let h := headers_get (_request info) GENESIS_NONCE_HEADER in
      let! _ := set_self (λ i,
            {| _request := _request i;
               _node_encryption_key := _node_encryption_key i;
               _response_nonce := _response_nonce i;
               _request_nonce_base64 := h;
               _node_uuid := _node_uuid i |}) in
      match nonempty h with
      | Some s => ret s
      | None => raise (ValueError "X-Genesis-Nonce header is missing or invalid")
      end
  end.

Definition request_nonce : M E bytes :=
  let! s := request_nonce_base64 in
  match b64decode s with
  | Some b => ret b
  | None => raise BinasciiError
  end.

Definition response_nonce : M E bytes :=
  let! info := self in
  match _response_nonce info with
  | Some nonce => ret nonce
  | None =>
      λ s, let '(nonce, e) := generate_nonce s.2 in
           (inr nonce,
            ({| _request := _request s.1;
                _node_encryption_key := _node_encryption_key s.1;
                _response_nonce := Some nonce;
                _request_nonce_base64 := _request_nonce_base64 s.1;
                _node_uuid := _node_uuid s.1 |}, e))
  end.

Definition response_nonce_base64 : M E string :=
  let! nonce := response_nonce in ret (b64encode nonce).

Definition _get_node_encryption_key : M E NodeEncryptionKey :=
  let! info := self in
  match _node_encryption_key info with
  | Some key => ret key
  | None =>
      let! u := node_uuid in
      match keys !! u with
      | Some key =>
          let! _ := set_self (λ i,
                {| _request := _request i;
                   _node_encryption_key := Some key;
                   _response_nonce := _response_nonce i;
                   _request_nonce_base64 := _request_nonce_base64 i;
                   _node_uuid := _node_uuid i |}) in
          ret key
      | None => raise RecordNotFound
      end
  end.

Definition encryption_key : M E bytes :=
  let! key := _get_node_encryption_key in
  match b64decode (private_key key) with
  | Some b => ret b
  | None => raise BinasciiError
  end.

(** [is_requires_encryption], at the time [now]. *)
Definition is_requires_encryption (now : Z) : M E bool :=
  let! node_encryption_key := _get_node_encryption_key in
  ret (encryption_disabled_until node_encryption_key <=? now)%Z.

(** [GenesisAgentEncryptedJsonPacker.pack] and [unpack]; [json_pack] and
    [json_unpack] are the [pack] and [unpack] of the JSON packer it
    extends. *)
Definition pack {O} (json_pack : O → option bytes) (obj : O) : M E bytes :=
  match json_pack obj with
  | None => raise PackError
  | Some plaintext =>
      let! key := encryption_key in
      let! nonce := response_nonce in
      match encrypt_chacha20_poly1305 key plaintext nonce None with
      | inl e => raise (CryptoError e)
      | inr c => ret c
      end
  end.

Definition unpack {O} (json_unpack : bytes → option O) (value : bytes) : M E O :=
  let! key := encryption_key in
  let! nonce := request_nonce in
  match decrypt_chacha20_poly1305 key nonce value None with
  | inl e => raise (CryptoError e)
  | inr plaintext =>
      match json_unpack plaintext with
      | Some obj => ret obj
      | None => raise PackError
      end
  end.

(** [headers[k] = v] on the response headers. *)
Fixpoint header_set (k v : string) (headers : list (string * string))
  : list (string * string) :=
  match headers with
  | [] => [(k, v)]
  | (k', v') :: headers' =>
      if String.eqb k k' then (k, v) :: headers'
      else (k', v') :: header_set k v headers'
  end.

(** [SdkEncryptionHeadersMixin._apply_encryption_headers] *)
Definition _apply_encryption_headers (now : Z) (headers : list (string * string))
  : M E (list (string * string)) :=
  let! required := is_requires_encryption now in
  if negb required then ret headers
  else
    let! info := self in
    let headers :=
      header_set "Content-Type"
        (default ENCRYPTED_JSON_CONTENT_TYPE
           (nonempty (content_type (_request info)))) headers in
    let! nonce := response_nonce in
    let headers := header_set GENESIS_NONCE_HEADER (b64encode nonce) headers in
    let! u := node_uuid in
    let headers := header_set GENESIS_NODE_UUID_HEADER (UUID_str u) headers in
    ret headers.
End methods.
End packers.

(** ** [gcl_sdk.common.utils]: entry points *)

Module common_utils.
Definition EVENT_PAYLOADS_GROUP : string := "gcl_sdk_event_payloads".

(** What the functions raise: the builtin [RuntimeError], and any other
    exception ([ImportError], [AttributeError], ...), by the name of its
    type. *)
Inductive error :=
| RuntimeError (msg : string)
| OtherError (type_name msg : string).

(** An entry point of the installed distributions: its group, its name
    and what [ep.load()] does, return the object or raise; importing the
    module runs its code, so any exception may come out, a [RuntimeError]
    as well. *)
Record entry_point (V : Type) := {
  ep_group : string;
  ep_name : string;
  ep_load : error + V;
}.
Arguments ep_group {V} _.
Arguments ep_name {V} _.
Arguments ep_load {V} _.

(** [importlib_metadata.entry_points(group=group)] over the installed entry
    points, in their order. *)
Definition entry_points {V} (installed : list (entry_point V)) (group : string)
  : list (entry_point V) :=
  filter (λ ep, ep_group ep = group) installed.

(** [ep.load()]; nothing around the call catches what it raises. *)
Definition load {V} (ep : entry_point V) : error + V := ep_load ep.

(** [load_event_payload_map]: a dictionary comprehension, a later entry
    point replaces an earlier one of the same name. *)
Definition load_event_payload_map {V} (installed : list (entry_point V))
  : error + gmap string V :=
  foldl (λ acc ep,
           match acc with
           | inl e => inl e
           | inr m =>
               match load ep with
               | inl e => inl e
               | inr v => inr (<[ep_name ep := v]> m)
               end
           end)
        (inr ∅) (entry_points installed EVENT_PAYLOADS_GROUP).

(** [load_from_entry_point]: the first entry point of the group with the
    name is loaded. *)
Fixpoint first_named {V} (eps : list (entry_point V)) (group name : string)
  : error + V :=
  match eps with
  | [] =>
      inl (RuntimeError ("No class '" ++ name ++ "' found in entry points "
                         ++ group))
  | ep :: eps' =>
      if String.eqb (ep_name ep) name then load ep
      else first_named eps' group name
  end.

Definition load_from_entry_point {V} (installed : list (entry_point V))
    (group name : string) : error + V :=
  first_named (entry_points installed group) group name.
End common_utils.

(** ** More sample data *)

Module samples.
Import examples.

(** A resource of a kind the sample driver and client do not know. *)
Definition disk9 : Resource :=
  {| uuid := 9; kind := "disk"; value := [("size", JInt 10)];
     target_fields := ∅ |}.

(** Node 7 with a uuid attribute of the caller's own and the read-only
    attributes. *)
Definition node7_full : Resource :=
  {| uuid := 7; kind := "node";
     value := [("uuid", JStr "mine"); ("name", JStr "n7");
               ("created_at", JStr "2026-01-01"); ("cores", JInt 4);
               ("project_id", JStr "00000000-0000-0000-0000-00000000000a")];
     target_fields := ∅ |}.

Definition installed : list (common_utils.entry_point nat) :=
  [ {| common_utils.ep_group := "gcl_sdk_event_payloads";
       common_utils.ep_name := "created"; common_utils.ep_load := inr 1 |};
    {| common_utils.ep_group := "services";
       common_utils.ep_name := "created";
       common_utils.ep_load :=
         inl (common_utils.RuntimeError "no backend configured") |};
    {| common_utils.ep_group := "gcl_sdk_event_payloads";
       common_utils.ep_name := "deleted"; common_utils.ep_load := inr 2 |} ].

(** A remote that answers every call with HTTP 503. *)
Definition unavailable_http : CollectionBaseClient unit :=
  let unavailable {A} : result A * unit :=
    (Raise (BazookaExc (bazooka_exc.OtherHTTPError 503)), ()) in
  {| http_get := λ url u h, unavailable;
     http_create := λ url data h, unavailable;
     http_update := λ url u kwargs h, unavailable;
     http_filter := λ url project_id h, unavailable;
     http_delete := λ url u h, unavailable |}.

(** The store has an entry for node 7 and the remote is unavailable. *)
Definition cut_off : pass (rest_state unit) :=
  {| storage_of := {[ ("node", 7%N) := {[ "name"; "cores" ]} ]};
     backend := {| remote := (); calls := [] |};
     log := [] |}.


(** Randomness that is all zero bytes, a text codec that takes the bytes as
    they are, and a cipher that leaves the data as it is: stand-ins to run
    the encryption layer. *)
Definition zero_secrets : crypto.Secrets nat :=
  λ n e, (repeat Byte.x00 n, S e).

Definition plain_base64 : crypto.Base64 :=
  {| crypto.b64encode := string_of_list_byte;
     crypto.b64decode := λ s, Some (list_byte_of_string s) |}.

Definition null_cipher : crypto.ChaCha20Poly1305 :=
  {| crypto.cipher_encrypt := λ key nonce data ad, inr data;
     crypto.cipher_decrypt := λ key nonce data ad, inr data |}.

Definition key7 : packers.NodeEncryptionKey :=
  {| packers.key_uuid := 7;
     packers.private_key := "0123456789abcdef0123456789abcdef";
     packers.encryption_disabled_until := 100 |}.

Definition request7 : packers.request :=
  {| packers.headers_get := λ name,
       if String.eqb name packers.GENESIS_NODE_UUID_HEADER
       then Some (canonical_str 7) else None;
     packers.content_type := None |}.
(** The request of node 7 with a nonce of twelve bytes. *)
Definition request7_nonce : packers.request :=
  {| packers.headers_get := λ name,
       if String.eqb name packers.GENESIS_NODE_UUID_HEADER
       then Some (canonical_str 7)
       else if String.eqb name packers.GENESIS_NONCE_HEADER
       then Some "abcdefghijkl" else None;
     packers.content_type := Some packers.ENCRYPTED_JSON_CONTENT_TYPE |}.
End samples.

(** * Properties *)

(** ** Induction over values, through lists and mappings *)

Lemma json_nested_ind (P : json → Prop) :
  P JNull →
  (∀ b, P (JBool b)) →
  (∀ n, P (JInt n)) →
  (∀ r, P (JFloat r)) →
  (∀ s, P (JStr s)) →
  (∀ l, Forall P l → P (JList l)) →
  (∀ d, Forall (λ kv, P kv.2) d → P (JDict d)) →
  (∀ t truth, P (JObject t truth)) →
  (∀ up, P (JCycle up)) →
  ∀ o, P o.
Proof.
  intros Hnull Hbool Hint Hfloat Hstr Hlist Hdict Hobj Hcycle.
  fix IH 1. intros [ | b | n | r | s | l | d | t truth | up ].
  - exact Hnull.
  - apply Hbool.
  - apply Hint.
  - apply Hfloat.
  - apply Hstr.
  - apply Hlist. induction l as [ | x l IHl ]; constructor; [ apply IH | exact IHl ].
  - apply Hdict.
    induction d as [ | [k v] d IHd ]; constructor; [ apply IH | exact IHd ].
  - apply Hobj.
  - apply Hcycle.
Qed.

(** The local loops of the definitions are the usual list functions. *)

Lemma iterencode_dict `{Interpreter} budget d :
  _iterencode (S budget) (JDict d) =
    (parts <-- sequence (map dumps_member (sort_items (render budget <$> d))) ;;
     Ok ("{" ++ join "," parts ++ "}")).
Proof.
  cbn [_iterencode]. do 4 f_equal.
  induction d as [ | [k v] d IH ]; [ done | ].
  cbn [fmap list_fmap]. unfold render at 1. cbn [fst snd]. by rewrite <- IH.
Qed.

Lemma wf_json_dict d :
  wf_json (JDict d) =
    bool_decide (NoDup d.*1) && forallb (λ kv, wf_json kv.2) d.
Proof.
  cbn [wf_json]. f_equal.
  induction d as [ | [k v] d IH ]; [ done | ]. cbn. by rewrite <- IH.
Qed.



Lemma same_content_dict da db :
  same_content (JDict da) (JDict db) =
    Nat.eqb (length da) (length db) && forallb (member_agrees db) da.
Proof.
  cbn [same_content]. f_equal.
  induction da as [ | [k v] da IH ]; [ done | ].
  cbn [forallb]. unfold member_agrees at 1. cbn [fst snd]. by rewrite <- IH.
Qed.

Lemma same_content_list la lb :
  same_content (JList la) (JList lb) = true ↔ Forall2 (λ x y, same_content x y = true) la lb.
Proof.
  cbn [same_content]. revert lb.
  induction la as [ | x la IH ]; intros [ | y lb ]; split; intros Hs;
    try done; try by inversion Hs.
  - apply andb_true_iff in Hs as [Hx Hl]. constructor; [ done | by apply IH ].
  - inversion Hs; subst. apply andb_true_iff. split; [ done | by apply IH ].
Qed.

Lemma assoc_Some_elem {A} k (v : A) d : assoc k d = Some v → (k, v) ∈ d.
Proof.
  induction d as [ | [k' v'] d IH ]; [ done | ]. cbn.
  destruct (String.eqb_spec k k') as [ -> | Hne ].
  - intros [= ->]. left.
  - intros Hs. right. auto.
Qed.

(** ** Sorting the items of a mapping *)

Lemma NoDup_keys_functional {A} (l : list (string * A)) k a b :
  NoDup l.*1 → (k, a) ∈ l → (k, b) ∈ l → a = b.
Proof.
  induction l as [ | [k' c] l IH ]; [ by intros _ ?%elem_of_nil | ].
  rewrite fmap_cons, NoDup_cons. cbn [fst].
  intros [Hk Hnd] [Ha | Ha]%elem_of_cons [Hb | Hb]%elem_of_cons.
  - congruence.
  - injection Ha as -> ->. destruct Hk. apply list_elem_of_fmap. by exists (k', b).
  - injection Hb as -> ->. destruct Hk. apply list_elem_of_fmap. by exists (k', a).
  - by apply IH.
Qed.

#[local] Instance item_le_trans {A} : Transitive (@item_le A).
Proof. intros x y z. unfold item_le. apply transitivity. Qed.

#[local] Instance item_le_total {A} : Total (@item_le A).
Proof. intros x y. unfold item_le. apply total, _. Qed.

Lemma sort_items_Permutation {A} (l1 l2 : list (string * A)) :
  NoDup l1.*1 → l1 ≡ₚ l2 → sort_items l1 = sort_items l2.
Proof.
  intros Hnd Hperm. unfold sort_items.
  apply (StronglySorted_unique_strong item_le).
  - intros [k1 a1] [k2 a2] H1 H2 Hle Hge. unfold item_le in Hle, Hge.
    cbn in Hle, Hge. assert (k1 = k2) as -> by by apply (anti_symm String.le).
    f_equal. apply (NoDup_keys_functional l1 k2); [ done | | ].
    + by rewrite merge_sort_Permutation in H1.
    + rewrite merge_sort_Permutation in H2. by rewrite Hperm.
  - apply StronglySorted_merge_sort; apply _.
  - apply StronglySorted_merge_sort; apply _.
  - by rewrite !merge_sort_Permutation.
Qed.

(** ** The canonical form does not depend on insertion order *)

Lemma forallb_elem {A} (f : A → bool) l x : forallb f l = true → x ∈ l → f x = true.
Proof.
  rewrite forallb_forall. intros Hall Hx. apply Hall. by apply list_elem_of_In.
Qed.

Lemma iterencode_same_content `{Interpreter} a :
  ∀ budget b, wf_json a = true → wf_json b = true → same_content a b = true →
              _iterencode budget a = _iterencode budget b.
Proof.
  induction a as [ | x | x | x | x | la IH | da IH | x tx | x ] using json_nested_ind;
    intros budget [ | y | y | y | y | lb | db | y ty | y ] Hwa Hwb Hs; try done.
  - apply Bool.eqb_prop in Hs. by subst.
  - apply Z.eqb_eq in Hs. by subst.
  - apply String.eqb_eq in Hs. by subst.
  - apply String.eqb_eq in Hs. by subst.
  - (* lists: member by member *)
    destruct budget as [ | budget ]; [ done | ].
    apply same_content_list in Hs. cbn [_iterencode]. cbn [wf_json] in Hwa, Hwb.
    assert (map (_iterencode budget) la = map (_iterencode budget) lb) as ->;
      [ | done ].
    revert Hwa Hwb IH.
    induction Hs as [ | x y la lb Hxy Hs IHs ]; [ done | ].
    cbn [forallb map]. intros [Hx Hla]%andb_true_iff [Hy Hlb]%andb_true_iff IH.
    inversion IH as [ | ? ? IHx IHl ]; subst. f_equal; auto.
  - (* mappings: the rendered members are a permutation of each other *)
    destruct budget as [ | budget ]; [ done | ].
    rewrite !iterencode_dict. rewrite wf_json_dict in Hwa, Hwb.
    rewrite same_content_dict in Hs.
    apply andb_true_iff in Hwa as [Hnda Hwa], Hwb as [Hndb Hwb], Hs as [Hlen Hs].
    apply bool_decide_eq_true in Hnda, Hndb. apply Nat.eqb_eq in Hlen.
    assert (render budget <$> da ≡ₚ render budget <$> db) as Hperm.
    { apply submseteq_length_Permutation; [ | by rewrite !length_fmap, Hlen ].
      apply NoDup_submseteq.
      - apply (NoDup_fmap_1 fst). by rewrite <- list_fmap_compose.
      - intros x [[k v] [-> Hkv]]%list_elem_of_fmap.
        pose proof (forallb_elem _ _ _ Hs Hkv) as Hm.
        unfold member_agrees in Hm. cbn [fst snd] in Hm.
        destruct (assoc k db) as [w | ] eqn:Hw; [ | done ].
        apply assoc_Some_elem in Hw.
        apply list_elem_of_fmap. exists (k, w). split; [ | done ].
        unfold render. cbn [fst snd]. f_equal.
        rewrite Forall_forall in IH. apply (IH (k, v)); [ done | | | done ].
        + apply (forallb_elem _ _ _ Hwa Hkv).
        + apply (forallb_elem _ _ _ Hwb Hw). }
    rewrite (sort_items_Permutation (render budget <$> da) (render budget <$> db));
      [ done | | done ].
    by rewrite <- list_fmap_compose.
  - apply andb_true_iff in Hs as [Hs _]. apply String.eqb_eq in Hs. by subst.
Qed.

Lemma dumps_same_content `{Interpreter} a b :
  wf_json a = true → wf_json b = true → same_content a b = true →
  dumps a = dumps b.
Proof. apply iterencode_same_content. Qed.

(** C5.  Two mappings with the same keys and the same values, at every
    nesting level, hash to the same digest whatever the order their keys
    were inserted in, for every hash method. *)
Theorem calculate_hash_key_order `{Interpreter} `{HashMethod} (A B : pydict) :
  wf_json (JDict A) = true → wf_json (JDict B) = true →
  same_content (JDict A) (JDict B) = true →
  calculate_hash (JDict A) = calculate_hash (JDict B).
Proof.
  intros HA HB Hs. unfold calculate_hash.
  by rewrite (dumps_same_content (JDict A) (JDict B)).
Qed.

Lemma calculate_hash_key_order_witness :
  sample_A ≠ sample_B ∧
  @calculate_hash cpython_defaults echo_hash (JDict sample_A)
  = @calculate_hash cpython_defaults echo_hash (JDict sample_B).
Proof.
  split; [ discriminate | ].
  apply (@calculate_hash_key_order cpython_defaults echo_hash sample_A sample_B);
    vm_compute; reflexivity.
Defined.

(** ** Values the encoder has no rule for *)












(** ** The direct driver *)

Section driver_facts.
Context {uuid_text : UuidText} {models : ResourceModels}
        {B : Type} {_client : BackendClient B}.
Variable self : DirectAgentDriver.

Lemma validate_supported resource :
  kind resource ∈ get_capabilities self → direct._validate self resource = Ok ().
Proof. intros Hk. unfold direct._validate. by rewrite decide_True. Qed.

(** What [update] does, by the outcome of the remote update. *)
Lemma update_remote_failure resource (w : pass B) e :
  kind resource ∈ get_capabilities self →
  r_result (client_update resource (backend w)) = Raise e →
  let rp := direct.update self resource w in
  storage_of (r_state rp) = storage_of w
  ∧ log (r_state rp) = (log w ++ [ClientUpdate resource])%list
  ∧ r_result rp =
      Raise (match e with
             | ClientExc client_exc.ResourceNotFound =>
                 DriverExc driver_exc.ResourceNotFound
             | _ => e
             end).
Proof.
  intros Hk He. unfold direct.update. rewrite validate_supported by done.
  cbn [direct.logged storage_of backend log]. rewrite He. by cbn.
Qed.

Lemma update_remote_success resource (w : pass B) resp :
  kind resource ∈ get_capabilities self →
  r_result (client_update resource (backend w)) = Ok resp →
  let rp := direct.update self resource w in
  let storage_item :=
    {| item_kind := kind resource; item_uuid := uuid resource;
       fields := dict_keys (value resource) |} in
  log (r_state rp) = (log w ++ [ClientUpdate resource; StorageUpdate storage_item])%list
  ∧ (is_Some (storage_of w !! (kind resource, uuid resource)) →
     storage_of (r_state rp)
     = <[(kind resource, uuid resource) := dict_keys (value resource)]> (storage_of w))
  ∧ (storage_of w !! (kind resource, uuid resource) = None →
     storage_of (r_state rp) = storage_of w
     ∧ r_result rp = Raise (StorageExc storage_exc.ItemNotFound)).
Proof.
  intros Hk He. unfold direct.update. rewrite validate_supported by done.
  cbn [direct.logged storage_of backend log]. rewrite He.
  unfold storage.update. cbn [item_kind item_uuid fields].
  destruct (storage_of w !! (kind resource, uuid resource)) as [fs | ] eqn:Hst;
    cbn; rewrite <- !app_assoc; cbn; repeat split; try done.
Qed.
(** C2.  For a resource of a supported kind, [update] calls the remote
    update before it touches the Target Field Store, and writes the new
    entry only if the remote update succeeded; when the remote update
    fails (with [ResourceNotFound] or anything else) the store is left as
    it was, so the entry recorded for (kind, uuid) is unchanged. *)
Theorem update_remote_before_store resource (w : pass B) :
  kind resource ∈ get_capabilities self →
  let c := client_update resource (backend w) in
  let rp := direct.update self resource w in
  let key := (kind resource, uuid resource) in
  let storage_item :=
    {| item_kind := kind resource; item_uuid := uuid resource;
       fields := dict_keys (value resource) |} in
  log (r_state rp)
  = (log w ++ ClientUpdate resource ::
       if is_ok (r_result c) then [StorageUpdate storage_item] else [])%list
  ∧ (∀ e, r_result c = Raise e →
       storage_of (r_state rp) = storage_of w
       ∧ storage_of (r_state rp) !! key = storage_of w !! key
       ∧ is_ok (r_result rp) = false)
  ∧ (r_result c = Raise (ClientExc client_exc.ResourceNotFound) →
       r_result rp = Raise (DriverExc driver_exc.ResourceNotFound))
  ∧ (storage_of (r_state rp) ≠ storage_of w →
       is_ok (r_result c) = true
       ∧ storage_of (r_state rp)
         = <[key := dict_keys (value resource)]> (storage_of w)).
Proof.
  intros Hk c rp key storage_item.
  destruct (r_result c) as [resp | e] eqn:Hc; subst c.
  - destruct (update_remote_success resource w resp Hk Hc) as (Hlog & Hsome & Hnone).
    fold rp in Hlog, Hsome, Hnone. cbn [is_ok].
    split; [ done | ]. split; [ done | ]. split; [ done | ].
    intros Hne. split; [ done | ].
    destruct (storage_of w !! (kind resource, uuid resource)) eqn:Hst.
    + apply Hsome. eauto.
    + by destruct (Hnone eq_refl) as [Heq _].
  - destruct (update_remote_failure resource w e Hk Hc) as (Hst & Hlog & Hres).
    fold rp in Hst, Hlog, Hres. cbn [is_ok].
    split; [ done | ]. split; [ | split ].
    + intros e' [= <-]. rewrite Hres, Hst. done.
    + intros [= ->]. by rewrite Hres.
    + intros Hne. by rewrite Hst in Hne.
Qed.

(** What [create] leaves behind, whatever the remote create does. *)
Lemma create_store_then_remote resource (w : pass B) :
  kind resource ∈ get_capabilities self →
  let rp := direct.create self resource w in
  let storage_item :=
    {| item_kind := kind resource; item_uuid := uuid resource;
       fields := dict_keys (value resource) |} in
  let c := client_create resource (backend w) in
  log (r_state rp)
  = (log w ++ [StorageCreate storage_item true; ClientCreate resource])%list
  ∧ storage_of (r_state rp)
    = <[(kind resource, uuid resource) := dict_keys (value resource)]> (storage_of w)
  ∧ backend (r_state rp) = r_state c
  ∧ r_value rp = r_value c
  ∧ (∀ e, r_result c = Raise e →
       r_result rp =
         Raise (match e with
                | ClientExc client_exc.ResourceAlreadyExists =>
                    DriverExc driver_exc.ResourceAlreadyExists
                | _ => e
                end)).
Proof.
  intros Hk. unfold direct.create. rewrite validate_supported by done.
  cbn [storage.create item_kind item_uuid fields direct.logged storage_of backend log].
  destruct (r_result (client_create resource (backend w))) as [resp | e] eqn:Hc;
    cbn; rewrite <- ?app_assoc; cbn; repeat split; try done.
  - destruct e as [ | | | | | [ | | ] | | | ]; cbn; rewrite <- ?app_assoc; done.
  - destruct e as [ | | | | | [ | | ] | | | ]; done.
  - destruct e as [ | | | | | [ | | ] | | | ]; done.
  - destruct e as [ | | | | | [ | | ] | | | ]; done.
  - intros e' [= <-]. destruct e as [ | | | | | [ | | ] | | | ]; done.
Qed.


(** C4, as the code has it.  For a resource of a supported kind, [delete]
    returns normally when the remote delete succeeds and when it raises
    [ResourceNotFound]; in both cases the remote delete comes first and the
    entry for (kind, uuid) is then force-deleted from the store.  Any other
    exception of the remote delete leaves [delete] as it is, before the
    store is called: the store keeps what it had.  Whenever [delete]
    returns, the entry is absent. *)
Theorem delete_always_forgets resource (w : pass B) :
  kind resource ∈ get_capabilities self →
  let c := client_delete resource (backend w) in
  let rp := direct.delete self resource w in
  let key := (kind resource, uuid resource) in
  let storage_item :=
    {| item_kind := kind resource; item_uuid := uuid resource; fields := ∅ |} in
  (r_result c = Ok () ∨ r_result c = Raise (ClientExc client_exc.ResourceNotFound) →
     r_result rp = Ok ()
     ∧ storage_of (r_state rp) = base.delete key (storage_of w)
     ∧ log (r_state rp)
       = (log w ++ [ClientDelete resource; StorageDelete storage_item true])%list)
  ∧ (∀ e, r_result c = Raise e → e ≠ ClientExc client_exc.ResourceNotFound →
       r_result rp = Raise e
       ∧ storage_of (r_state rp) = storage_of w
       ∧ log (r_state rp) = (log w ++ [ClientDelete resource])%list)
  ∧ (is_ok (r_result rp) = true → storage_of (r_state rp) !! key = None).
Proof.
  intros Hk c rp key storage_item.
  assert (∀ st : store,
             match st !! key with
             | Some _ => Ok (base.delete key st)
             | None => Ok st
             end = Ok (base.delete key st)) as Hdel.
  { intros st. destruct (st !! key) eqn:Hst; [ done | ]. by rewrite delete_id. }
  subst rp c. unfold direct.delete. rewrite validate_supported by done.
  cbn [direct.logged storage_of backend log with_value kind uuid].
  unfold storage.delete. cbn [item_kind item_uuid fields]. fold key.
  destruct (r_result (client_delete resource (backend w))) as [[] | e] eqn:Hc.
  - rewrite Hdel. cbn. rewrite <- app_assoc. repeat split; try done.
    intros _. apply lookup_delete_eq.
  - split; [ | split ].
    + intros [ ? | [= ->] ]; [ done | ]. rewrite Hdel. cbn.
      rewrite <- app_assoc. done.
    + intros e' [= <-] Hne.
      destruct e as [ | | | | | [ | | ] | | | ]; try done.
    + destruct e as [ | | | | | [ | | ] | | | ]; try done.
      rewrite Hdel. cbn. intros _. apply lookup_delete_eq.
Qed.

(** When the remote update succeeds for a resource the store has no entry
    for, the store's [ItemNotFound] leaves [update] as it is. *)
Lemma update_leaks_ItemNotFound resource (w : pass B) resp :
  kind resource ∈ get_capabilities self →
  r_result (client_update resource (backend w)) = Ok resp →
  storage_of w !! (kind resource, uuid resource) = None →
  r_result (direct.update self resource w)
  = Raise (StorageExc storage_exc.ItemNotFound).
Proof.
  intros Hk Hc Hst.
  destruct (update_remote_success resource w resp Hk Hc) as (_ & _ & Hnone).
  by destruct (Hnone Hst).
Qed.

(** *** [list]: the keys of the two dictionaries *)







(** The store's listing of a kind holds the uuids it has an entry for. *)
Lemma storage_list_uuid (k : string) (st : store) (u : UUID) :
  u ∈ item_uuid <$> storage.list k st ↔ is_Some (st !! (k, u)).
Proof.
  unfold storage.list. rewrite list_elem_of_fmap. split.
  - intros [i [-> [[[k' u'] fs] [Hin Hi]]%list_elem_of_omap]].
    cbn in Hi. destruct (decide (k' = k)) as [-> | ]; [ | done ].
    injection Hi as <-. cbn. apply elem_of_map_to_list in Hin. eauto.
  - intros [fs Hfs].
    exists {| item_kind := k; item_uuid := u; fields := fs |}. split; [ done | ].
    apply list_elem_of_omap. exists ((k, u), fs). split.
    + by apply elem_of_map_to_list.
    + cbn. by rewrite decide_True.
Qed.

End driver_facts.

(** ** The REST backend client *)

Lemma assoc_dict_set_eq k v (d : pydict) : assoc k (dict_set k v d) = Some v.
Proof.
  induction d as [ | [k' v'] d IH ]; cbn.
  - by rewrite String.eqb_refl.
  - destruct (String.eqb k k') eqn:Hk; cbn; rewrite ?Hk; [ | done ].
    by rewrite String.eqb_refl.
Qed.

Lemma assoc_dict_pop k k' (d : pydict) :
  assoc k (dict_pop k' d) = if String.eqb k k' then None else assoc k d.
Proof.
  unfold dict_pop. induction d as [ | [k0 v0] d IH ].
  - cbn. by destruct (String.eqb k k').
  - rewrite filter_cons. cbn [fst].
    destruct (decide (k0 ≠ k')) as [Hne | Heq%dec_stable].
    + cbn [assoc]. rewrite IH. destruct (String.eqb_spec k k0) as [-> | ]; [ | done ].
      by apply String.eqb_neq in Hne as ->.
    + subst k0. rewrite IH. cbn [assoc]. destruct (String.eqb k k'); done.
Qed.

Section rest_facts.
Context {uuid_text : UuidText} {H : Type} {http : CollectionBaseClient H}.
Variable self : GCRestApiBackendClient.

(** C10, as the code has it.  For a resource whose kind the collection
    map holds, [create] writes the key [uuid], holding the text of the
    resource's own uuid, into the caller's [resource.value], and the
    remote call, if one is made, comes after and is given that
    dictionary; for any other kind [create] raises [KeyError] and has
    written nothing.  [update] works on a copy, so the caller's
    [resource.value] is what it was for every resource, whether the remote
    update succeeds or fails, and the copy sent has lost [created_at],
    [updated_at], [project_id] and [uuid]. *)
Theorem rest_create_writes_update_copies resource (s : rest_state H) :
  r_value (rest.update self resource s) = value resource
  ∧ (collection_map self !! kind resource = None →
       rest.create self resource s = fail (KeyError (kind resource)) s resource
       ∧ r_value (rest.create self resource s) = value resource)
  ∧ (∀ url, collection_map self !! kind resource = Some url →
       (∃ kwargs,
          calls (r_state (rest.update self resource s))
          = (calls s ++ [HttpUpdate url (uuid resource) kwargs])%list
          ∧ assoc "created_at" kwargs = None
          ∧ assoc "updated_at" kwargs = None
          ∧ assoc "project_id" kwargs = None
          ∧ assoc "uuid" kwargs = None)
       ∧ let rp := rest.create self resource s in
         r_value rp
         = dict_set "uuid" (JStr (UUID_str (uuid resource))) (value resource)
         ∧ assoc "uuid" (r_value rp) = Some (JStr (UUID_str (uuid resource)))
         ∧ (calls (r_state rp) = calls s
            ∨ calls (r_state rp)
              = (calls s ++ [HttpCreate url (r_value rp)])%list)).
Proof.
  split; [ | split ].
  - unfold rest.update. destruct (rest.collection_url self (kind resource)); [ | done ].
    by destruct (http_update _ _ _ _).
  - intros Hnone. unfold rest.create, rest.collection_url. by rewrite Hnone.
  - intros url Hurl. split.
    + unfold rest.update, rest.collection_url. rewrite Hurl.
      destruct (http_update _ _ _ _) as [r h]. cbn.
      eexists. split; [ done | ].
      rewrite !assoc_dict_pop. cbn. done.
    + unfold rest.create, rest.collection_url. rewrite Hurl.
      cbn [with_value value uuid kind].
      destruct (truthy _ && ne_str _ _).
      * cbn. split; [ done | ]. split; [ apply assoc_dict_set_eq | by left ].
      * destruct (http_create _ _ _) as [r h]. cbn.
        split; [ done | ]. split; [ apply assoc_dict_set_eq | by right ].
Qed.
End rest_facts.

(** ** The delta payload protocol *)

(** C6.  When the payload hashes to [h]: a poll that supplies [h] is
    answered with empty capabilities and facts and the same hash; a poll
    that supplies anything else is answered with the full payload and
    [h]. *)
Theorem get_payload_hash_gate `{Interpreter} `{HashMethod}
    (assembled : payload.Payload)
    (version : Z) (last_known_hash h : string) :
  calculate_hash (payload.to_json assembled) = Ok h →
  (last_known_hash = h →
   payload.get_payload assembled version last_known_hash
   = Ok {| payload.resp_capabilities := []; payload.resp_facts := [];
           payload.resp_hash := last_known_hash |})
  ∧ (last_known_hash ≠ h →
     payload.get_payload assembled version last_known_hash
     = Ok {| payload.resp_capabilities := payload.capabilities assembled;
             payload.resp_facts := payload.facts assembled;
             payload.resp_hash := h |}).
Proof.
  intros Hh. unfold payload.get_payload. rewrite Hh. cbn. split.
  - intros ->. by rewrite String.eqb_refl.
  - intros Hne. by apply String.eqb_neq in Hne as ->.
Qed.

(** ** Dependency tracking *)

Section view_facts.
Import migration_0004.

Lemma sql_eq_Some a u : sql_eq a (Some u) = true ↔ a = Some u.
Proof.
  destruct a as [x | ]; cbn; [ | done ]. rewrite N.eqb_eq. naive_solver.
Qed.

Lemma left_join_uar_inhabited tracked uars : ∃ x, x ∈ left_join_uar tracked uars.
Proof.
  unfold left_join_uar. destruct (filter _ uars) as [ | a l ].
  - exists None. left.
  - exists (Some a). left.
Qed.

Lemma view_row row tracked utr uar :
  row ∈ ua_outdated_tracked_full_hash_instances_view tracked utr uar ↔
  ∃ t r a, t ∈ tracked ∧ r ∈ utr ∧ a ∈ left_join_uar t uar
           ∧ sql_eq (target t) (utr_res_uuid r) = true
           ∧ tracked_full_hash t ≠ utr_full_hash r
           ∧ row = select t r a.
Proof.
  unfold ua_outdated_tracked_full_hash_instances_view.
  setoid_rewrite list_elem_of_bind. setoid_rewrite list_elem_of_bind.
  setoid_rewrite list_elem_of_bind. setoid_rewrite list_elem_of_filter.
  split.
  - intros (t & (r & (a & Hrow & Ha) & Hjoin & Hr) & Ht).
    destruct (String.eqb_spec (tracked_full_hash t) (utr_full_hash r)) as [ | Hne ];
      cbn in Hrow; [ by apply elem_of_nil in Hrow | ].
    apply list_elem_of_singleton in Hrow. by exists t, r, a.
  - intros (t & r & a & Ht & Hr & Ha & Hjoin & Hne & ->).
    exists t. split; [ | done ]. exists r. split; [ | done ].
    exists a. split; [ | done ].
    apply String.eqb_neq in Hne as ->. cbn. left.
Qed.

(** C7.  A tracked resource that references an existing target resource
    is reported stale by the view exactly when its snapshot [full_hash]
    differs from the target's current [full_hash]; the verdict is a
    function of the current rows, and the table of tracked resources has
    no boolean column to keep it in. *)
Theorem stale_iff_full_hash_differs
    (ua_tracked_resources : list tracked_row)
    (ua_target_resources : list target_row)
    (ua_actual_resources : list actual_row)
    (t : tracked_row) (r : target_row) (u : UUID) :
  NoDup (tracked_uuid <$> ua_tracked_resources) →
  (∀ r', r' ∈ ua_target_resources → utr_res_uuid r' = Some u → r' = r) →
  t ∈ ua_tracked_resources → r ∈ ua_target_resources →
  target t = Some u → utr_res_uuid r = Some u →
  (reported_stale t ua_tracked_resources ua_target_resources ua_actual_resources
   = true ↔ tracked_full_hash t ≠ utr_full_hash r)
  ∧ Forall (λ c, c.2 ≠ SqlBoolean) ua_tracked_resources_columns.
Proof.
  intros Hpk Huniq Ht Hr Htarget Hres. split.
  - unfold reported_stale. rewrite bool_decide_eq_true, list_elem_of_fmap.
    setoid_rewrite view_row. split.
    + intros (row & Hrow & t' & r' & a & Ht' & Hr' & _ & Hjoin & Hne & ->).
      cbn in Hrow.
      assert (t' = t) as ->.
      { apply list_elem_of_lookup in Ht as [i Hi], Ht' as [j Hj].
        assert (i = j) as ->; [ | congruence ].
        apply (NoDup_lookup _ i j (tracked_uuid t) Hpk);
          rewrite list_lookup_fmap; [ by rewrite Hi | by rewrite Hj, Hrow ]. }
      rewrite Htarget in Hjoin.
      destruct (utr_res_uuid r') as [u' | ] eqn:Hu'; [ | done ].
      cbn in Hjoin. apply N.eqb_eq in Hjoin as <-.
      by rewrite (Huniq r' Hr' Hu') in Hne.
    + intros Hne. destruct (left_join_uar_inhabited t ua_actual_resources) as [a Ha].
      exists (select t r a). split; [ done | ].
      exists t, r, a. repeat (split; [ done | ]). split; [ | done ].
      rewrite Hres. by apply sql_eq_Some.
  - unfold ua_tracked_resources_columns. repeat constructor; done.
Qed.
End view_facts.

(** ** The claims on a concrete driver *)

Section scenario_facts.
Import examples.
#[local] Existing Instance canonical_uuid_text.
#[local] Existing Instance base_models.
#[local] Existing Instance memory_http.client.
#[local] Existing Instance scenario.client.

Lemma node_supported : "node" ∈ get_capabilities scenario.driver.
Proof. vm_compute. reflexivity. Defined.


Lemma update_remote_before_store_witness :
  r_result (scenario.update scenario.node7 scenario.orphan)
  = Raise (DriverExc driver_exc.ResourceNotFound)
  ∧ storage_of (r_state (scenario.update scenario.node7 scenario.orphan)) = storage_of scenario.orphan
  ∧ log (r_state (scenario.update scenario.node7 scenario.orphan)) = [ClientUpdate scenario.node7].
Proof.
  destruct (update_remote_before_store (_client := scenario.client) scenario.driver scenario.node7 scenario.orphan
              node_supported) as (Hlog & Hfail & Hnotfound & _).
  split; [ apply Hnotfound; vm_compute; reflexivity | ].
  split; [ | exact Hlog ].
  eapply Hfail. vm_compute. reflexivity.
Defined.



Lemma delete_always_forgets_witness :
  r_result (client_delete scenario.node7 (backend scenario.orphan))
  = Raise (ClientExc client_exc.ResourceNotFound)
  ∧ r_result (scenario.delete scenario.node7 scenario.orphan) = Ok ()
  ∧ storage_of (r_state (scenario.delete scenario.node7 scenario.orphan)) !! ("node", 7%N) = None.
Proof.
  destruct (delete_always_forgets (_client := scenario.client) scenario.driver scenario.node7 scenario.orphan
              node_supported) as (Hdone & _ & Hgone).
  assert (r_result (client_delete scenario.node7 (backend scenario.orphan))
          = Raise (ClientExc client_exc.ResourceNotFound)) as Hc
    by (vm_compute; reflexivity).
  split; [ exact Hc | ].
  destruct (Hdone (or_intror Hc)) as (Hres & _ & _).
  split; [ exact Hres | ]. apply Hgone. cbv zeta. by rewrite Hres.
Defined.

(** C4 as stated fails: when the remote delete fails with anything but
    [ResourceNotFound] (here the remote answers 503), [delete] raises and
    the store keeps the entry. *)
Lemma delete_remote_error_keeps_entry :
  let rp :=
    direct.delete
      (_client := rest_client (http := samples.unavailable_http) scenario.nodes_api)
      scenario.driver scenario.node7 samples.cut_off in
  storage_of samples.cut_off !! ("node", 7%N) = Some {[ "name"; "cores" ]}
  ∧ r_result rp = Raise (BazookaExc (bazooka_exc.OtherHTTPError 503))
  ∧ storage_of (r_state rp) !! ("node", 7%N) = Some {[ "name"; "cores" ]}
  ∧ calls (backend (r_state rp)) = [HttpDelete "/v1/nodes/" 7].
Proof. vm_compute. repeat split; reflexivity. Qed.

(** C9 fails for [update]: the backend holds node 7 and updates it, the
    store has no entry for it, and the store's own [ItemNotFound] reaches
    the caller, where [get] would have raised the scenario.driver's
    [ResourceNotFound]. *)
Theorem update_raises_raw_ItemNotFound :
  r_result (scenario.update scenario.node7 scenario.taken)
  = Raise (StorageExc storage_exc.ItemNotFound)
  ∧ is_ok (r_result (client_update scenario.node7 (backend scenario.taken))) = true
  ∧ r_result (scenario.get scenario.node7 scenario.fresh)
    = Raise (DriverExc driver_exc.ResourceNotFound).
Proof. vm_compute. repeat split; reflexivity. Qed.

Lemma rest_create_writes_update_copies_witness :
  let s := backend scenario.taken in
  r_value (rest.update scenario.nodes_api scenario.node8_foreign s) = value scenario.node8_foreign
  ∧ r_value (rest.create scenario.nodes_api scenario.node7 s)
    = (value scenario.node7
       ++ [("uuid", JStr "00000000-0000-0000-0000-000000000007")])%list
  ∧ calls (r_state (rest.create scenario.nodes_api scenario.node7 s))
    = [HttpCreate "/v1/nodes/" (r_value (rest.create scenario.nodes_api scenario.node7 s))].
Proof.
  destruct (rest_create_writes_update_copies (http := memory_http.client)
              scenario.nodes_api scenario.node8_foreign (backend scenario.taken)) as (Hupdate & _).
  destruct (rest_create_writes_update_copies (http := memory_http.client)
              scenario.nodes_api scenario.node7 (backend scenario.taken))
    as (_ & _ & Hcreate).
  destruct (Hcreate "/v1/nodes/" eq_refl) as (_ & Hvalue & _ & Hcalls).
  split; [ exact Hupdate | ]. split; [ by rewrite Hvalue | ].
  destruct Hcalls as [Hcalls | Hcalls]; [ by vm_compute in Hcalls | exact Hcalls ].
Defined.

(** C10 as stated fails for a resource of a kind the collection map does
    not hold: [create] raises [KeyError] and the caller's value has no
    [uuid]. *)
Lemma rest_create_unconfigured_no_uuid :
  let rp :=
    rest.create (http := memory_http.client) scenario.nodes_api samples.disk9
      (backend scenario.fresh) in
  r_result rp = Raise (KeyError "disk")
  ∧ assoc "uuid" (r_value rp) = None
  ∧ r_value rp = value samples.disk9
  ∧ calls (r_state rp) = [].
Proof. vm_compute. repeat split; reflexivity. Qed.

Lemma get_payload_hash_gate_witness :
  ∃ h full,
    @payload.get_payload cpython_defaults echo_hash scenario.assigned 0
      EmptyString = Ok full
    ∧ payload.resp_hash full = h
    ∧ payload.resp_capabilities full = payload.capabilities scenario.assigned
    ∧ @payload.get_payload cpython_defaults echo_hash scenario.assigned 0 h
      = Ok {| payload.resp_capabilities := []; payload.resp_facts := [];
              payload.resp_hash := h |}.
Proof.
  destruct (@calculate_hash cpython_defaults echo_hash
              (payload.to_json scenario.assigned)) as [h | e] eqn:Hh;
    [ | by vm_compute in Hh ].
  destruct (@get_payload_hash_gate cpython_defaults echo_hash scenario.assigned
              0 EmptyString h Hh)
    as (_ & Hfull).
  destruct (@get_payload_hash_gate cpython_defaults echo_hash scenario.assigned
              0 h h Hh) as (Hsame & _).
  eexists h, _. split; [ apply Hfull | ].
  - intros <-. by vm_compute in Hh.
  - split; [ done | ]. split; [ done | ]. by apply Hsame.
Defined.

Lemma stale_iff_full_hash_differs_witness :
  migration_0004.reported_stale scenario.tracked5 [scenario.tracked5] [scenario.target11] [] = true
  ∧ migration_0004.reported_stale
      scenario.tracked5 [scenario.tracked5]
      [{| migration_0004.utr_uuid := 1;
          migration_0004.utr_res_uuid := Some 11%N;
          migration_0004.utr_kind := "node";
          migration_0004.utr_full_hash := "aaaa" |}] [] = false.
Proof.
  split.
  - apply (stale_iff_full_hash_differs [scenario.tracked5] [scenario.target11] [] scenario.tracked5 scenario.target11 11%N).
    + apply NoDup_singleton.
    + by intros r' ->%list_elem_of_singleton _.
    + left.
    + left.
    + reflexivity.
    + reflexivity.
    + discriminate.
  - reflexivity.
Defined.
End scenario_facts.

(** * Further properties of the code *)

(** ** [ResourceTransformer] *)

Lemma is_None_true v : is_None v = true ↔ v = JNull.
Proof. destruct v; cbn; split; congruence. Qed.

(** X1.  [transform] keeps a member of the view unless null attributes are
    ignored, the member's value is null and, when attribute names are
    given, its name is among them; it holds nothing else. *)
Theorem transform_elem (t : ResourceTransformer) (view : pydict) k v :
  (k, v) ∈ transform t view ↔
  (k, v) ∈ view
  ∧ ¬ (ignore_null_attributes t = true ∧ v = JNull
       ∧ match attributes t with
         | None => True
         | Some names => k ∈ names
         end).
Proof.
  unfold transform.
  destruct (ignore_null_attributes t); cbn [negb]; [ | naive_solver ].
  destruct (attributes t) as [names | ]; rewrite list_elem_of_filter; cbn [fst snd].
  - rewrite andb_false_iff, bool_decide_eq_false, <- not_true_iff_false, is_None_true.
    split; [ naive_solver | ].
    intros [Hin Hkeep]. split; [ | done ].
    destruct (decide (k ∈ names)); [ | by right ].
    left. intros ->. by apply Hkeep.
  - rewrite <- not_true_iff_false, is_None_true. naive_solver.
Qed.

(** X2.  [transform] only removes members: what is left is a
    subsequence of the view, in the same order; an attribute with a value
    other than null is still found with that value; transforming twice is
    transforming once. *)
Theorem transform_subsequence_idempotent (t : ResourceTransformer) (view : pydict) :
  sublist (transform t view) view
  ∧ (∀ k v, assoc k view = Some v → v ≠ JNull →
            assoc k (transform t view) = Some v)
  ∧ transform t (transform t view) = transform t view.
Proof.
  assert (∀ (P : string * json → Prop) `{!∀ x, Decision (P x)} (l : pydict),
            filter P (filter P l) = filter P l) as Hidem.
  { intros P ? l. rewrite list_filter_filter. apply list_filter_iff. tauto. }
  assert (∀ (P : string * json → Prop) `{!∀ x, Decision (P x)} (l : pydict) k v,
            (∀ k', P (k', v)) → assoc k l = Some v →
            assoc k (filter P l) = Some v) as Hassoc.
  { intros P ? l k v HP. induction l as [ | [k' v'] l IH ]; [ done | ].
    cbn [assoc]. rewrite filter_cons.
    destruct (String.eqb_spec k k') as [<- | Hne].
    - intros [= ->]. rewrite decide_True by done. cbn. by rewrite String.eqb_refl.
    - intros Hl. destruct (decide (P (k', v'))); [ | by apply IH ].
      cbn. apply String.eqb_neq in Hne as ->. by apply IH. }
  unfold transform.
  destruct (ignore_null_attributes t); cbn [negb]; [ | done ].
  destruct (attributes t) as [names | ].
  - split; [ apply sublist_filter | ]. split; [ | apply Hidem ].
    intros k v Hk Hv. apply Hassoc; [ | done ]. intros k'. cbn.
    destruct v; try done.
  - split; [ apply sublist_filter | ]. split; [ | apply Hidem ].
    intros k v Hk Hv. apply Hassoc; [ | done ]. intros k'. cbn.
    destruct v; try done.
Qed.

Lemma lower_char_t c : text.lower_char c = "t"%char ↔ c = "t"%char ∨ c = "T"%char.
Proof.
  split; [ | by intros [-> | ->] ].
  destruct c as [[] [] [] [] [] [] [] []]; vm_compute; intros [=]; auto.
Qed.

Lemma lower_char_r c : text.lower_char c = "r"%char ↔ c = "r"%char ∨ c = "R"%char.
Proof.
  split; [ | by intros [-> | ->] ].
  destruct c as [[] [] [] [] [] [] [] []]; vm_compute; intros [=]; auto.
Qed.

Lemma lower_char_u c : text.lower_char c = "u"%char ↔ c = "u"%char ∨ c = "U"%char.
Proof.
  split; [ | by intros [-> | ->] ].
  destruct c as [[] [] [] [] [] [] [] []]; vm_compute; intros [=]; auto.
Qed.

Lemma lower_char_e c : text.lower_char c = "e"%char ↔ c = "e"%char ∨ c = "E"%char.
Proof.
  split; [ | by intros [-> | ->] ].
  destruct c as [[] [] [] [] [] [] [] []]; vm_compute; intros [=]; auto.
Qed.

(** X3.  [from_dict] without the key [ignore_null_attributes] gives a
    transformer that returns every view as it is, whatever the attributes;
    a string under that key switches the dropping of nulls on exactly when
    it spells [true] in any mix of upper and lower case. *)
Theorem from_dict_flag (attrs : option attributes_value) (s : string) :
  (∀ view,
     transform (from_dict {| cfg_ignore_null_attributes := None;
                             cfg_attributes := attrs |}) view = view)
  ∧ (ignore_null_attributes
       (from_dict {| cfg_ignore_null_attributes := Some (FlagStr s);
                     cfg_attributes := attrs |}) = true
     ↔ ∃ c1 c2 c3 c4,
         s = String c1 (String c2 (String c3 (String c4 EmptyString)))
         ∧ (c1 = "t" ∨ c1 = "T") ∧ (c2 = "r" ∨ c2 = "R")
         ∧ (c3 = "u" ∨ c3 = "U") ∧ (c4 = "e" ∨ c4 = "E"))%char.
Proof.
  split; [ intros view; reflexivity | ].
  unfold from_dict. cbn [cfg_ignore_null_attributes ignore_null_attributes].
  rewrite String.eqb_eq. split.
  - destruct s as [ | c1 [ | c2 [ | c3 [ | c4 [ | c5 s ] ] ] ] ]; cbn; try done.
    intros [= H1%lower_char_t H2%lower_char_r H3%lower_char_u H4%lower_char_e].
    by exists c1, c2, c3, c4.
  - intros (c1 & c2 & c3 & c4 & -> & H1%lower_char_t & H2%lower_char_r
            & H3%lower_char_u & H4%lower_char_e).
    cbn. by rewrite H1, H2, H3, H4.
Qed.

Lemma split_comma_single piece :
  text.comma ∉ list_ascii_of_string piece → text.split_comma piece = [piece].
Proof.
  induction piece as [ | c piece IH ]; [ intros _; reflexivity | ].
  intros Hnot. cbn [list_ascii_of_string] in Hnot.
  apply not_elem_of_cons in Hnot as [Hc Hp]. simpl.
  destruct (Ascii.eqb_spec c text.comma) as [-> | _]; [ done | ].
  by rewrite IH.
Qed.

Lemma split_comma_app piece rest :
  text.comma ∉ list_ascii_of_string piece →
  text.split_comma (piece ++ String text.comma rest)
  = piece :: text.split_comma rest.
Proof.
  induction piece as [ | c piece IH ]; [ intros _; reflexivity | ].
  intros Hnot. cbn [list_ascii_of_string] in Hnot.
  apply not_elem_of_cons in Hnot as [Hc Hp]. simpl.
  destruct (Ascii.eqb_spec c text.comma) as [-> | _]; [ done | ].
  by rewrite IH.
Qed.

Lemma split_comma_join pieces :
  pieces ≠ [] →
  Forall (λ piece, text.comma ∉ list_ascii_of_string piece) pieces →
  text.split_comma (join "," pieces) = pieces.
Proof.
  induction pieces as [ | p pieces IH ]; [ done | ]. intros _ Hall.
  apply Forall_cons in Hall as [Hp Hall].
  destruct pieces as [ | q pieces ]; [ by apply split_comma_single | ].
  change (join "," (p :: q :: pieces))
    with (p ++ String text.comma (join "," (q :: pieces))).
  rewrite split_comma_app by done. by rewrite IH.
Qed.

(** X4.  A string of attribute names is cut at its commas and each piece
    loses the blanks around it; the names are a set.  For pieces without
    commas, at least one, joined by commas, [from_dict] gives every
    stripped piece once, whatever the number of times it was written, and
    nothing else.  The empty string gives one name, the empty one. *)
Theorem from_dict_attributes_string (flag : option flag_value) (pieces : list string) :
  pieces ≠ [] →
  Forall (λ piece, text.comma ∉ list_ascii_of_string piece) pieces →
  (∃ names,
     attributes (from_dict {| cfg_ignore_null_attributes := flag;
                              cfg_attributes := Some (AttrsStr (join "," pieces)) |})
     = Some names
     ∧ NoDup names
     ∧ ∀ name, name ∈ names ↔ name ∈ text.strip <$> pieces)
  ∧ attributes (from_dict {| cfg_ignore_null_attributes := flag;
                             cfg_attributes := Some (AttrsStr EmptyString) |})
    = Some [EmptyString].
Proof.
  intros Hne Hall. split.
  - eexists. split; [ reflexivity | ]. rewrite split_comma_join by done.
    split; [ apply NoDup_elements | ].
    intros name. by rewrite elem_of_elements, elem_of_list_to_set.
  - cbn. by rewrite (right_id_L ∅ (∪)), elements_singleton.
Qed.

Lemma from_dict_attributes_string_witness :
  ∃ names,
    attributes (from_dict {| cfg_ignore_null_attributes := Some (FlagStr "True");
                             cfg_attributes :=
                               Some (AttrsStr "name, cores ,  name") |})
    = Some names
    ∧ NoDup names
    ∧ ∀ name, name ∈ names ↔ name ∈ ["name"; "cores"; "name"].
Proof.
  destruct (from_dict_attributes_string (Some (FlagStr "True"))
              ["name"; " cores "; "  name"]) as [Hnames _].
  - discriminate.
  - repeat constructor; vm_compute; intros Hin;
      repeat (apply elem_of_cons in Hin as [[=] | Hin]); by apply elem_of_nil in Hin.
  - exact Hnames.
Defined.

(** ** More on the direct driver *)

Section driver_more.
Context {uuid_text : UuidText} {models : ResourceModels}
        {B : Type} {_client : BackendClient B}.
Variable self : DirectAgentDriver.

Lemma validate_unsupported resource :
  kind resource ∉ get_capabilities self →
  direct._validate self resource
  = Raise (TypeError ("Unsupported capability " ++ kind resource)).
Proof. intros Hk. unfold direct._validate. by rewrite decide_False. Qed.

(** X5.  For a resource whose kind is not among the driver's capabilities,
    [get], [create], [update] and [delete] raise [TypeError] before
    anything else happens: neither the store nor the client is called and
    the pass is left as it was; [list] does the same for the capability. *)
Theorem unsupported_kind_touches_nothing resource (w : pass B) :
  kind resource ∉ get_capabilities self →
  let e := TypeError ("Unsupported capability " ++ kind resource) in
  direct.get self resource w = fail e w resource
  ∧ direct.create self resource w = fail e w resource
  ∧ direct.update self resource w = fail e w resource
  ∧ direct.delete self resource w = fail e w resource
  ∧ direct.list self (kind resource) w = (Raise e, w).
Proof.
  intros Hk e.
  unfold direct.get, direct.create, direct.update, direct.delete, direct.list,
    direct.list_entries.
  rewrite validate_unsupported by done. by rewrite decide_False.
Qed.

(** [get] when the store has the entry and the client answers. *)
Lemma get_found resource (w : pass B) fs item :
  kind resource ∈ get_capabilities self →
  storage_of w !! (kind resource, uuid resource) = Some fs →
  r_result (client_get resource (backend w)) = Ok item →
  let rp := direct.get self resource w in
  r_result rp
  = direct._prepare_res_response self
      (with_value resource (r_value (client_get resource (backend w)))) item fs
  ∧ log (r_state rp)
    = (log w ++ [StorageGet (kind resource) (uuid resource);
                 ClientGet resource])%list.
Proof.
  intros Hk Hst Hc. unfold direct.get. rewrite validate_supported by done.
  cbn [direct.logged storage_of backend log]. unfold storage.get.
  rewrite Hst. cbn [fields]. rewrite Hc. cbn. by rewrite <- app_assoc.
Qed.

(** [get] when the store has no entry. *)
Lemma get_no_entry resource (w : pass B) :
  kind resource ∈ get_capabilities self →
  storage_of w !! (kind resource, uuid resource) = None →
  direct.get self resource w
  = fail (DriverExc driver_exc.ResourceNotFound)
      {| storage_of := storage_of w; backend := backend w;
         log := log w ++ [StorageGet (kind resource) (uuid resource)] |}
      resource.
Proof.
  intros Hk Hst. unfold direct.get. rewrite validate_supported by done.
  cbn [direct.logged storage_of backend log]. unfold storage.get.
  by rewrite Hst.
Qed.

(** X6.  [get] on a supported kind reads the store first and never writes
    to it.  Without a store entry it raises [ResourceNotFound] and the
    client is not called; with an entry and an answer from the client, the
    result is the answer prepared with the stored target fields; and it
    returns only if both are there. *)
Theorem get_store_then_client resource (w : pass B) :
  kind resource ∈ get_capabilities self →
  let rp := direct.get self resource w in
  let c := client_get resource (backend w) in
  let key := (kind resource, uuid resource) in
  storage_of (r_state rp) = storage_of w
  ∧ (storage_of w !! key = None →
       r_result rp = Raise (DriverExc driver_exc.ResourceNotFound)
       ∧ backend (r_state rp) = backend w
       ∧ log (r_state rp) = (log w ++ [StorageGet (kind resource) (uuid resource)])%list)
  ∧ (∀ fs item, storage_of w !! key = Some fs → r_result c = Ok item →
       r_result rp
       = direct._prepare_res_response self (with_value resource (r_value c)) item fs
       ∧ log (r_state rp)
         = (log w ++ [StorageGet (kind resource) (uuid resource);
                      ClientGet resource])%list)
  ∧ (is_ok (r_result rp) = true →
       is_Some (storage_of w !! key) ∧ is_ok (r_result c) = true).
Proof.
  intros Hk rp c key.
  split; [ | split; [ | split ] ].
  - subst rp. unfold direct.get. rewrite validate_supported by done.
    cbn [direct.logged storage_of backend log]. unfold storage.get.
    destruct (storage_of w !! _); [ | done ].
    by destruct (r_result (client_get resource (backend w))).
  - intros Hst. subst rp. by rewrite get_no_entry.
  - intros fs item Hst Hc. by apply get_found.
  - subst rp key. destruct (storage_of w !! _) as [fs | ] eqn:Hst.
    + subst c. destruct (r_result (client_get resource (backend w))) eqn:Hc;
        [ eauto | ].
      unfold direct.get. rewrite validate_supported by done.
      cbn [direct.logged storage_of backend log]. unfold storage.get.
      rewrite Hst, Hc. done.
    + by rewrite get_no_entry.
Qed.

(** *** Operations one after the other *)

(** X7.  After [create], whatever the remote create did, a [get] the
    client answers is prepared with the attribute names the resource had
    when [create] was called, not with those the client's answer or the
    client's writes to [resource.value] bring. *)
Theorem get_after_create resource (w : pass B) item :
  kind resource ∈ get_capabilities self →
  let created := direct.create self resource w in
  let resource' := with_value resource (r_value created) in
  let c := client_get resource' (backend (r_state created)) in
  r_result c = Ok item →
  r_result (direct.get self resource' (r_state created))
  = direct._prepare_res_response self (with_value resource' (r_value c)) item
      (dict_keys (value resource)).
Proof.
  intros Hk created resource' c Hc.
  destruct (create_store_then_remote self resource w Hk) as (_ & Hst & _).
  apply get_found; [ done | | done ].
  fold created in Hst. rewrite Hst. apply lookup_insert_eq.
Qed.

(** X8.  Once [delete] has returned, a [get] for the resource raises
    [ResourceNotFound] without calling the client, and a second [delete]
    that the backend answers (with success or [ResourceNotFound]) returns
    and leaves the store as the first one left it. *)
Theorem after_delete resource (w : pass B) :
  kind resource ∈ get_capabilities self →
  let deleted := direct.delete self resource w in
  let resource' := with_value resource (r_value deleted) in
  is_ok (r_result deleted) = true →
  direct.get self resource' (r_state deleted)
  = fail (DriverExc driver_exc.ResourceNotFound)
      {| storage_of := storage_of (r_state deleted);
         backend := backend (r_state deleted);
         log := log (r_state deleted)
                ++ [StorageGet (kind resource) (uuid resource)] |}
      resource'
  ∧ (let c := client_delete resource' (backend (r_state deleted)) in
     r_result c = Ok () ∨ r_result c = Raise (ClientExc client_exc.ResourceNotFound) →
     r_result (direct.delete self resource' (r_state deleted)) = Ok ()
     ∧ storage_of (r_state (direct.delete self resource' (r_state deleted)))
       = storage_of (r_state deleted)).
Proof.
  intros Hk deleted resource' Hok.
  assert (storage_of (r_state deleted) !! (kind resource, uuid resource) = None)
    as Hgone.
  { revert Hok. subst deleted. unfold direct.delete.
    rewrite validate_supported by done.
    cbn [direct.logged storage_of backend log with_value kind uuid].
    unfold storage.delete. cbn [item_kind item_uuid fields].
    destruct (r_result (client_delete resource (backend w)))
      as [[] | [ | | | | | [ | | ] | | | ]]; try done;
      destruct (storage_of w !! (kind resource, uuid resource)) eqn:Hst; cbn;
      intros _; by rewrite ?lookup_delete_eq. }
  split; [ exact (get_no_entry resource' (r_state deleted) Hk Hgone) | ].
  intros c Hc. unfold direct.delete. rewrite validate_supported by done.
  cbn [direct.logged storage_of backend log with_value kind uuid].
  unfold storage.delete. cbn [item_kind item_uuid fields]. fold resource' c.
  change (kind resource') with (kind resource).
  change (uuid resource') with (uuid resource).
  rewrite Hgone. by destruct Hc as [-> | ->].
Qed.

(** X9.  After [create], whatever the remote create did, an [update] of
    the same resource (with any new value) whose remote update succeeds
    finds the store entry: it returns the prepared answer and the entry
    now holds the attribute names of the new value. *)
Theorem update_after_create resource (w : pass B) (new_value : pydict) resp :
  kind resource ∈ get_capabilities self →
  let created := direct.create self resource w in
  let resource' := with_value resource new_value in
  let c := client_update resource' (backend (r_state created)) in
  r_result c = Ok resp →
  let updated := direct.update self resource' (r_state created) in
  r_result updated
  = direct._prepare_res_response self (with_value resource' (r_value c)) resp
      (dict_keys new_value)
  ∧ storage_of (r_state updated) !! (kind resource, uuid resource)
    = Some (dict_keys new_value).
Proof.
  intros Hk created resource' c Hc updated.
  destruct (create_store_then_remote self resource w Hk) as (_ & Hst & _).
  fold created in Hst. subst updated. unfold direct.update.
  rewrite validate_supported by done.
  cbn [direct.logged storage_of backend log]. fold c. rewrite Hc.
  unfold storage.update. cbn [item_kind item_uuid fields with_value kind uuid value].
  rewrite Hst, lookup_insert_eq. cbn. split; [ done | ].
  apply lookup_insert_eq.
Qed.
(** *** Where the resources of [list] come from *)

Lemma by_uuid_lookup items u si :
  direct.by_uuid items !! u = Some si → si ∈ items ∧ item_uuid si = u.
Proof.
  unfold direct.by_uuid.
  assert (∀ m : gmap UUID TargetFieldItem,
            foldl (λ m i, <[item_uuid i := i]> m) m items !! u = Some si →
            (si ∈ items ∧ item_uuid si = u) ∨ m !! u = Some si) as Hgen.
  { induction items as [ | i items IH ]; intros m; cbn; [ by right | ].
    intros [[Hin Hu] | Hm]%IH.
    - left. split; [ by right | done ].
    - destruct (decide (item_uuid i = u)) as [Hi | Hi].
      + rewrite Hi, lookup_insert_eq in Hm. injection Hm as ->.
        left. split; [ by left | done ].
      + rewrite lookup_insert_ne in Hm by done. by right. }
  intros [? | Hm]%Hgen; [ done | ]. by rewrite lookup_empty in Hm.
Qed.

Lemma storage_list_elem (k : string) (st : store) si :
  si ∈ storage.list k st →
  item_kind si = k ∧ st !! (k, item_uuid si) = Some (fields si).
Proof.
  unfold storage.list.
  intros [[[k' u'] fs] [Hin Hi]]%list_elem_of_omap. cbn in Hi.
  destruct (decide (k' = k)) as [-> | ]; [ | done ].
  injection Hi as <-. cbn. split; [ done | ]. by apply elem_of_map_to_list.
Qed.

Lemma collect_item_provenance (capability : string) (st : store) i cr cr' :
  direct.collect_item self capability
    (direct.by_uuid (storage.list capability st)) i cr = Ok cr' →
  ∀ u r, cr' !! u = Some r →
         cr !! u = Some r ∨ built_from self capability st i u r.
Proof.
  assert (∀ u si,
            direct.by_uuid (storage.list capability st) !! u = Some si →
            st !! (capability, u) = Some (fields si)) as Hstore.
  { intros u si [Hin <-]%by_uuid_lookup. by apply storage_list_elem in Hin as [_ ?]. }
  intros Hi u r Hr. unfold built_from.
  destruct i as [r' | d | m]; cbn in Hi |- *.
  - injection Hi as <-. destruct (decide (uuid r' = u)) as [<- | Hne].
    + rewrite lookup_insert_eq in Hr. injection Hr as <-. by right.
    + rewrite lookup_insert_ne in Hr by done. by left.
  - destruct (assoc "uuid" d) as [v | ]; [ | done ].
    destruct (UUID_of v) as [u0 | ]; [ | done ]. cbn in Hi.
    destruct (direct.by_uuid _ !! u0) as [si | ] eqn:Hsi.
    + destruct (Resource_from_value _ _ _) as [r0 | ] eqn:Hfrom; [ | done ].
      injection Hi as <-. destruct (decide (u0 = u)) as [<- | Hne].
      * rewrite lookup_insert_eq in Hr. injection Hr as <-. right.
        split; [ done | ]. exists (fields si). split; [ by apply Hstore | done ].
      * rewrite lookup_insert_ne in Hr by done. by left.
    + injection Hi as <-. by left.
  - destruct (direct.by_uuid _ !! get_resource_uuid m) as [si | ] eqn:Hsi.
    + destruct (direct._model_to_resource _ _ _ _) as [r0 | ] eqn:Hfrom; [ | done ].
      injection Hi as <-.
      destruct (decide (get_resource_uuid m = u)) as [<- | Hne].
      * rewrite lookup_insert_eq in Hr. injection Hr as <-. right.
        split; [ done | ]. exists (fields si). split; [ by apply Hstore | done ].
      * rewrite lookup_insert_ne in Hr by done. by left.
    + injection Hi as <-. by left.
Qed.

Lemma collect_provenance (capability : string) (st : store) items :
  ∀ cr cr',
    direct.collect self capability
      (direct.by_uuid (storage.list capability st)) items cr = Ok cr' →
    ∀ u r, cr' !! u = Some r →
           cr !! u = Some r
           ∨ ∃ i, i ∈ items ∧ built_from self capability st i u r.
Proof.
  induction items as [ | i items IH ]; intros cr cr' Hc u r Hr; cbn in Hc.
  - injection Hc as <-. by left.
  - destruct (direct.collect_item self capability _ i cr) as [cr1 | ] eqn:Hi;
      [ | done ].
    cbn in Hc. destruct (IH _ _ Hc u r Hr) as [Hr1 | (i' & Hin & Hb)].
    + destruct (collect_item_provenance _ _ _ _ _ Hi u r Hr1) as [? | Hb];
        [ by left | ].
      right. exists i. split; [ by left | done ].
    + right. exists i'. split; [ by right | done ].
Qed.

(** X10.  Every resource [list] returns was built from an item of the
    client's listing that reports its uuid: a typed resource is returned as
    the client gave it; a raw mapping or a model is transformed and turned
    into a resource with the target fields the local store holds for that
    uuid, never with fields taken from the backend's item. *)
Theorem list_entries_built_from capability (w w' : pass B) entries :
  direct.list_entries self capability w = (Ok entries, w') →
  ∃ items,
    (client_list capability (backend w)).1 = Ok items
    ∧ ∀ u r, (u, r) ∈ entries →
             ∃ i, i ∈ items ∧ built_from self capability (storage_of w) i u r.
Proof.
  unfold direct.list_entries. destruct (decide _) as [Hcap | Hcap]; [ | done ].
  cbn [direct.logged storage_of backend log].
  destruct (client_list capability (backend w)) as [[items | e1] b]; [ | done ].
  destruct (direct.collect self capability _ items ∅) as [cr | e2] eqn:Hc;
    [ | done ].
  intros [= <- <-]. exists items. split; [ done | ].
  intros u r (u' & _ & Hu)%list_elem_of_omap.
  destruct (cr !! u') as [r' | ] eqn:Hr; [ | done ]. injection Hu as <- <-.
  destruct (collect_provenance _ _ _ _ _ Hc u' r' Hr) as [Hempty | ?]; [ | done ].
  by rewrite lookup_empty in Hempty.
Qed.
End driver_more.

(** ** More on the REST backend client *)

Lemma assoc_dict_set_ne k k' v (d : pydict) :
  k ≠ k' → assoc k (dict_set k' v d) = assoc k d.
Proof.
  intros Hne. apply String.eqb_neq in Hne.
  induction d as [ | [k0 v0] d IH ]; cbn; [ by rewrite Hne | ].
  destruct (String.eqb_spec k' k0) as [<- | Hne']; cbn.
  - by rewrite Hne.
  - by rewrite IH.
Qed.

Lemma dict_set_keys k v (d : pydict) :
  (dict_set k v d).*1 = if decide (k ∈ d.*1) then d.*1 else (d.*1 ++ [k])%list.
Proof.
  induction d as [ | [k0 v0] d IH ]; cbn; [ done | ].
  destruct (String.eqb_spec k k0) as [<- | Hne]; cbn.
  - rewrite decide_True by left. done.
  - rewrite IH. destruct (decide (k ∈ d.*1)) as [Hin | Hout].
    + rewrite decide_True by by right. done.
    + rewrite decide_False; [ done | ]. rewrite elem_of_cons. tauto.
Qed.


Lemma dict_pop_sublist k (d : pydict) : sublist (dict_pop k d) d.
Proof. apply sublist_filter. Qed.

Section rest_more.
Context {uuid_text : UuidText} {H : Type} {http : CollectionBaseClient H}.
Variable self : GCRestApiBackendClient.

(** X11.  For a kind the collection map does not hold, every method of the
    REST client raises [KeyError] for that kind at once: no HTTP call is
    made and the caller's resource is not written to, not even by
    [create]. *)
Theorem rest_unconfigured_kind resource (s : rest_state H) :
  collection_map self !! kind resource = None →
  let e := KeyError (kind resource) in
  rest.get self resource s = fail e s resource
  ∧ rest.create self resource s = fail e s resource
  ∧ rest.update self resource s = fail e s resource
  ∧ rest.delete self resource s = fail e s resource
  ∧ rest.list self (kind resource) s = (Raise e, s).
Proof.
  intros Hnone e.
  unfold rest.get, rest.create, rest.update, rest.delete, rest.list,
    rest.collection_url.
  by rewrite Hnone.
Qed.


(** X13.  [update] sends every attribute of the resource except
    [created_at], [updated_at], [project_id] and [uuid], in the order the
    value has them, in exactly one HTTP call. *)
Theorem rest_update_payload resource (s : rest_state H) url :
  collection_map self !! kind resource = Some url →
  ∃ kwargs,
    calls (r_state (rest.update self resource s))
    = (calls s ++ [HttpUpdate url (uuid resource) kwargs])%list
    ∧ sublist kwargs (value resource)
    ∧ ∀ k v, (k, v) ∈ kwargs ↔
             (k, v) ∈ value resource
             ∧ k ∉ ["created_at"; "updated_at"; "project_id"; "uuid"].
Proof.
  intros Hurl. unfold rest.update, rest.collection_url. rewrite Hurl.
  destruct (http_update _ _ _ _) as [r h]. cbn [r_state rest.called calls].
  eexists. split; [ done | ]. split.
  - pose proof dict_pop_sublist as Hsub.
    etrans; [ apply Hsub | ]. etrans; [ apply Hsub | ].
    etrans; [ apply Hsub | ]. apply Hsub.
  - intros k v. unfold dict_pop. rewrite !list_elem_of_filter. cbn [fst].
    rewrite !not_elem_of_cons, elem_of_nil. naive_solver.
Qed.

(** X14.  The uuid [create] writes replaces a [uuid] attribute the caller
    supplied, in its place, or is added last; every other attribute keeps
    its value, and distinct attribute names stay distinct. *)
Theorem rest_create_keeps_other_attributes resource (s : rest_state H) url :
  collection_map self !! kind resource = Some url →
  let value' := r_value (rest.create self resource s) in
  (∀ k, k ≠ "uuid" → assoc k value' = assoc k (value resource))
  ∧ value'.*1
    = (if decide ("uuid" ∈ (value resource).*1) then (value resource).*1
       else (value resource).*1 ++ ["uuid"])%list
  ∧ (NoDup (value resource).*1 → NoDup value'.*1).
Proof.
  intros Hurl value'.
  assert (value' = dict_set "uuid" (JStr (UUID_str (uuid resource))) (value resource))
    as ->.
  { subst value'. unfold rest.create, rest.collection_url. rewrite Hurl.
    cbn [with_value value uuid kind].
    destruct (truthy _ && ne_str _ _); [ done | ].
    by destruct (http_create _ _ _). }
  split; [ intros k Hk; by apply assoc_dict_set_ne | ].
  rewrite dict_set_keys. split; [ done | ].
  intros Hnd. destruct (decide _) as [Hin | Hout]; [ done | ].
  apply NoDup_app. split; [ done | ]. split; [ | apply NoDup_singleton ].
  intros k Hk ->%list_elem_of_singleton. done.
Qed.
End rest_more.

(** ** More on [calculate_hash] *)


(** ** More on the view of outdated tracked resources *)

Section view_more.
Import migration_0004.

Lemma left_join_uar_elem tracked uars a :
  a ∈ left_join_uar tracked uars ↔
  (a = None ∧ ∀ uar, uar ∈ uars → sql_eq (target tracked) (uar_res_uuid uar) = false)
  ∨ (∃ uar, a = Some uar ∧ uar ∈ uars
            ∧ sql_eq (target tracked) (uar_res_uuid uar) = true).
Proof.
  unfold left_join_uar.
  destruct (filter _ uars) as [ | m ms ] eqn:Hf.
  - rewrite list_elem_of_singleton. split.
    + intros ->. left. split; [ done | ]. intros uar Hin.
      apply not_true_iff_false. intros Heq.
      assert (uar ∈ filter (λ uar, sql_eq (target tracked) (uar_res_uuid uar) = true) uars)
        as Hm by by apply list_elem_of_filter.
      rewrite Hf in Hm. by apply elem_of_nil in Hm.
    + intros [[-> _] | (uar & -> & Hin & Heq)]; [ done | ].
      assert (uar ∈ filter (λ uar, sql_eq (target tracked) (uar_res_uuid uar) = true) uars)
        as Hm by by apply list_elem_of_filter.
      rewrite Hf in Hm. by apply elem_of_nil in Hm.
  - rewrite <- Hf, list_elem_of_fmap. setoid_rewrite list_elem_of_filter. split.
    + intros (uar & -> & Heq & Hin). right. by exists uar.
    + intros [[-> Hnone] | (uar & -> & Hin & Heq)]; [ | by exists uar ].
      assert (m ∈ filter (λ uar, sql_eq (target tracked) (uar_res_uuid uar) = true) uars)
        as [Heq Hin]%list_elem_of_filter by (rewrite Hf; left).
      by rewrite (Hnone m Hin) in Heq.
Qed.

(** X16.  Every row of the view comes from a tracked resource with a
    target that is not NULL and from the target resource with that
    [res_uuid]; its [uuid] and [tracked_resource] are the tracked
    resource's uuid; its two hashes are the snapshot and the current
    [full_hash], and they differ; [actual_resource] is an actual resource
    with the same [res_uuid], or NULL when there is none. *)
Theorem outdated_view_rows
    (ua_tracked_resources : list tracked_row)
    (ua_target_resources : list target_row)
    (ua_actual_resources : list actual_row) (row : outdated_row) :
  row ∈ ua_outdated_tracked_full_hash_instances_view
          ua_tracked_resources ua_target_resources ua_actual_resources →
  uuid row = tracked_resource row
  ∧ full_hash row ≠ actual_full_hash row
  ∧ ∃ t r u,
      t ∈ ua_tracked_resources ∧ r ∈ ua_target_resources
      ∧ target t = Some u ∧ utr_res_uuid r = Some u
      ∧ uuid row = tracked_uuid t
      ∧ out_watcher_kind row = watcher_kind t
      ∧ full_hash row = tracked_full_hash t
      ∧ actual_full_hash row = utr_full_hash r
      ∧ match actual_resource row with
        | Some a =>
            ∃ uar, uar ∈ ua_actual_resources ∧ uar_uuid uar = a
                   ∧ uar_res_uuid uar = Some u
        | None =>
            ∀ uar, uar ∈ ua_actual_resources → uar_res_uuid uar ≠ Some u
        end.
Proof.
  intros (t & r & a & Ht & Hr & Ha & Hjoin & Hne & ->)%view_row.
  cbn. split; [ done | ]. split; [ done | ].
  destruct (target t) as [u | ] eqn:Htarget; [ | done ].
  destruct (utr_res_uuid r) as [u' | ] eqn:Hres; [ | done ].
  cbn in Hjoin. apply N.eqb_eq in Hjoin as <-.
  exists t, r, u. do 8 (split; [ done | ]).
  apply left_join_uar_elem in Ha as [[-> Hnone] | (uar & -> & Hin & Heq)]; cbn.
  - intros uar Hin Heq. specialize (Hnone uar Hin).
    rewrite Htarget, Heq in Hnone. cbn in Hnone. by rewrite N.eqb_refl in Hnone.
  - exists uar. split; [ done | ]. split; [ done | ].
    rewrite Htarget in Heq.
    destruct (uar_res_uuid uar) as [u' | ]; [ | done ].
    cbn in Heq. by apply N.eqb_eq in Heq as <-.
Qed.

(** X17.  A tracked resource whose target is stale is listed once for
    every actual resource with the target's [res_uuid], and once with
    [actual_resource] NULL when there is no such actual resource. *)
Theorem outdated_view_left_join
    (ua_tracked_resources : list tracked_row)
    (ua_target_resources : list target_row)
    (ua_actual_resources : list actual_row)
    (t : tracked_row) (r : target_row) (u : UUID) :
  t ∈ ua_tracked_resources → r ∈ ua_target_resources →
  target t = Some u → utr_res_uuid r = Some u →
  tracked_full_hash t ≠ utr_full_hash r →
  (∀ uar, uar ∈ ua_actual_resources → uar_res_uuid uar = Some u →
     select t r (Some uar) ∈
       ua_outdated_tracked_full_hash_instances_view
         ua_tracked_resources ua_target_resources ua_actual_resources)
  ∧ ((∀ uar, uar ∈ ua_actual_resources → uar_res_uuid uar ≠ Some u) →
     select t r None ∈
       ua_outdated_tracked_full_hash_instances_view
         ua_tracked_resources ua_target_resources ua_actual_resources).
Proof.
  intros Ht Hr Htarget Hres Hne.
  assert (sql_eq (target t) (utr_res_uuid r) = true) as Hjoin
    by (rewrite Hres; by apply sql_eq_Some).
  split.
  - intros uar Hin Huar. apply view_row. exists t, r, (Some uar).
    do 2 (split; [ done | ]). split; [ | done ].
    apply left_join_uar_elem. right. exists uar. do 2 (split; [ done | ]).
    rewrite Huar. by apply sql_eq_Some.
  - intros Hnone. apply view_row. exists t, r, None.
    do 2 (split; [ done | ]). split; [ | done ].
    apply left_join_uar_elem. left. split; [ done | ]. intros uar Hin.
    apply not_true_iff_false. rewrite Htarget.
    destruct (uar_res_uuid uar) as [u' | ] eqn:Hu'; [ | done ].
    cbn. rewrite N.eqb_eq. intros <-. by apply (Hnone uar Hin).
Qed.
End view_more.

(** ** Entry points *)

Section entry_point_facts.
Import common_utils.
Context {V : Type}.

Lemma first_named_none (eps : list (entry_point V)) group name :
  (∀ ep, ep ∈ eps → ep_name ep ≠ name) →
  first_named eps group name
  = inl (RuntimeError ("No class '" ++ name ++ "' found in entry points "
                       ++ group)).
Proof.
  induction eps as [ | ep eps IH ]; intros Hnone; [ done | ]. cbn.
  destruct (String.eqb_spec (ep_name ep) name) as [Heq | _].
  - destruct (Hnone ep); [ left | done ].
  - apply IH. intros ep' Hin. apply Hnone. by right.
Qed.

Lemma first_named_app (before : list (entry_point V)) ep after group name :
  (∀ ep', ep' ∈ before → ep_name ep' ≠ name) → ep_name ep = name →
  first_named (before ++ ep :: after) group name = load ep.
Proof.
  induction before as [ | ep' before IH ]; intros Hnone Hname; cbn.
  - apply String.eqb_eq in Hname. by rewrite Hname.
  - destruct (String.eqb_spec (ep_name ep') name) as [Heq | _].
    + destruct (Hnone ep'); [ left | done ].
    + apply IH; [ | done ]. intros ep'' Hin. apply Hnone. by right.
Qed.

Lemma entry_point_split (installed : list (entry_point V)) (group name : string) :
  (∀ ep, ep ∈ installed → ep_group ep = group → ep_name ep ≠ name)
  ∨ ∃ before ep after,
      installed = (before ++ ep :: after)%list
      ∧ ep_group ep = group ∧ ep_name ep = name
      ∧ ∀ ep', ep' ∈ before → ep_group ep' = group → ep_name ep' ≠ name.
Proof.
  induction installed as [ | ep1 installed IH ].
  - left. intros ep Hin. by apply elem_of_nil in Hin.
  - destruct (decide (ep_group ep1 = group ∧ ep_name ep1 = name)) as [[? ?] | Hno].
    + right. exists [], ep1, installed. repeat split; try done.
      intros ep' Hin'. by apply elem_of_nil in Hin'.
    + destruct IH as [Hnone | (before & ep0 & after & -> & Hg0 & Hn0 & Hbefore)].
      * left. intros ep [-> | Hin]%elem_of_cons Hg Hn; [ by destruct Hno | ].
        by apply (Hnone ep).
      * right. exists (ep1 :: before), ep0, after. repeat split; try done.
        intros ep' [-> | Hin']%elem_of_cons Hg' Hn'; [ by destruct Hno | ].
        by apply (Hbefore ep').
Qed.

(** X18.  [load_from_entry_point] loads the first installed entry point of
    the group that has the name, whatever comes after it, and answers with
    what loading it gives: the object, or the exception loading raised, as
    it is, without trying a later entry point.  When the group has no entry
    point of that name it raises the [RuntimeError] that names the class
    and the group.  A value it returns was loaded from the first entry
    point of that group and name. *)
Theorem load_from_entry_point_first (installed : list (entry_point V))
    (group name : string) :
  ((∀ ep, ep ∈ installed → ep_group ep = group → ep_name ep ≠ name) →
   load_from_entry_point installed group name
   = inl (RuntimeError ("No class '" ++ name ++ "' found in entry points "
                        ++ group)))
  ∧ (∀ before ep after,
       installed = (before ++ ep :: after)%list →
       ep_group ep = group → ep_name ep = name →
       (∀ ep', ep' ∈ before → ep_group ep' = group → ep_name ep' ≠ name) →
       load_from_entry_point installed group name = ep_load ep)
  ∧ (∀ v, load_from_entry_point installed group name = inr v →
       ∃ before ep after,
         installed = (before ++ ep :: after)%list
         ∧ ep_group ep = group ∧ ep_name ep = name
         ∧ (∀ ep', ep' ∈ before → ep_group ep' = group → ep_name ep' ≠ name)
         ∧ ep_load ep = inr v).
Proof.
  unfold load_from_entry_point, entry_points.
  assert (∀ before ep after,
            installed = (before ++ ep :: after)%list →
            ep_group ep = group → ep_name ep = name →
            (∀ ep', ep' ∈ before → ep_group ep' = group → ep_name ep' ≠ name) →
            first_named (filter (λ ep, ep_group ep = group) installed) group name
            = ep_load ep) as Hfirst.
  { intros before ep after -> Hgroup Hname Hbefore.
    rewrite filter_app, filter_cons_True by done.
    rewrite first_named_app; [ done | | done ].
    intros ep' [Hg Hin]%list_elem_of_filter. by apply Hbefore. }
  assert ((∀ ep, ep ∈ installed → ep_group ep = group → ep_name ep ≠ name) →
          first_named (filter (λ ep, ep_group ep = group) installed) group name
          = inl (RuntimeError ("No class '" ++ name ++ "' found in entry points "
                               ++ group))) as Hnone.
  { intros Hnone. apply first_named_none.
    intros ep [Hg Hin]%list_elem_of_filter. by apply Hnone. }
  split; [ exact Hnone | ]. split; [ exact Hfirst | ].
  intros v Hv.
  destruct (entry_point_split installed group name)
    as [Hno | (before & ep & after & Heq & Hg & Hn & Hbefore)].
  - rewrite (Hnone Hno) in Hv. done.
  - exists before, ep, after. repeat split; try done.
    by rewrite <- (Hfirst before ep after Heq Hg Hn Hbefore).
Qed.

Lemma payload_fold (eps : list (entry_point V)) :
  ∀ m0 m : gmap string V,
    foldl (λ (acc : error + gmap string V) ep,
             match acc with
             | inl e => inl e
             | inr m =>
                 match load ep with
                 | inl e => inl e
                 | inr v => inr (<[ep_name ep := v]> m)
                 end
             end) (inr m0) eps = inr m →
    NoDup (ep_name <$> eps) →
    Forall (λ ep, ∃ v, ep_load ep = inr v) eps
    ∧ ∀ name v, m !! name = Some v ↔
                (∃ ep, ep ∈ eps ∧ ep_name ep = name ∧ ep_load ep = inr v)
                ∨ ((¬ name ∈ ep_name <$> eps) ∧ m0 !! name = Some v).
Proof.
  induction eps as [ | ep eps IH ]; intros m0 m; cbn [foldl fmap list_fmap].
  - intros [= <-] _. split; [ constructor | ]. intros name v.
    split; [ intros ?; right; split; [ apply not_elem_of_nil | done ] | ].
    intros [(ep & Hin & _) | [_ ?]]; [ by apply elem_of_nil in Hin | done ].
  - destruct (load ep) as [e | v0] eqn:Hload.
    { intros Hfold. exfalso. clear -Hfold.
      induction eps as [ | ep' eps IH ]; [ done | ]. by apply IH. }
    unfold load in Hload.
    intros Hfold [Hfresh Hnd]%NoDup_cons.
    destruct (IH _ _ Hfold Hnd) as [Hall Hiff].
    split; [ constructor; [ by exists v0 | done ] | ].
    intros name v. rewrite Hiff. split.
    + intros [(ep' & Hin & Hn & Hl) | [Hout Hm]].
      * left. exists ep'. split; [ by right | done ].
      * destruct (decide (ep_name ep = name)) as [Heq | Hne].
        -- rewrite Heq, lookup_insert_eq in Hm. injection Hm as <-.
           left. exists ep. split; [ left | done ].
        -- rewrite lookup_insert_ne in Hm by done. right.
           split; [ | done ]. rewrite not_elem_of_cons. split; [ congruence | done ].
    + intros [(ep' & [-> | Hin]%elem_of_cons & Hn & Hl) | [Hout Hm]].
      * right. split; [ by rewrite <- Hn | ].
        rewrite Hn, lookup_insert_eq. congruence.
      * left. by exists ep'.
      * apply not_elem_of_cons in Hout as [Hne Hout]. right.
        split; [ done | ]. rewrite lookup_insert_ne by done. done.
Qed.

(** X19.  When [load_event_payload_map] returns and the names of the event
    payload group are distinct, it maps a name to a class exactly when
    [load_from_entry_point] returns that class for the group and the name. *)
Theorem payload_map_agrees (installed : list (entry_point V))
    (m : gmap string V) (name : string) (v : V) :
  load_event_payload_map installed = inr m →
  NoDup (ep_name <$> entry_points installed EVENT_PAYLOADS_GROUP) →
  m !! name = Some v ↔
  load_from_entry_point installed EVENT_PAYLOADS_GROUP name = inr v.
Proof.
  unfold load_event_payload_map, load_from_entry_point.
  generalize (entry_points installed EVENT_PAYLOADS_GROUP). intros eps Hfold Hnd.
  destruct (payload_fold _ _ _ Hfold Hnd) as [Hall Hiff]. rewrite Hiff.
  clear Hfold Hiff. induction eps as [ | ep eps IH ]; cbn.
  - split; [ | done ].
    intros [(ep & Hin & _) | [_ Hm]]; [ by apply elem_of_nil in Hin | ].
    by rewrite lookup_empty in Hm.
  - apply NoDup_cons in Hnd as [Hfresh Hnd]. apply Forall_cons in Hall as [Hep Hall].
    destruct (String.eqb_spec (ep_name ep) name) as [Heq | Hne].
    + unfold load. destruct Hep as [v0 Hv0]. rewrite Hv0. split.
      * intros [(ep' & [-> | Hin]%elem_of_cons & Hn & Hl) | [_ Hm]].
        -- congruence.
        -- destruct Hfresh. apply list_elem_of_fmap. exists ep'.
           split; [ congruence | done ].
        -- by rewrite lookup_empty in Hm.
      * intros [= <-]. left. exists ep. split; [ left | done ].
    + rewrite <- (IH Hnd Hall). split.
      * intros [(ep' & [-> | Hin]%elem_of_cons & Hn & Hl) | [_ Hm]];
          [ done | left; by exists ep' | by rewrite lookup_empty in Hm ].
      * intros [(ep' & Hin & Hn & Hl) | [_ Hm]];
          [ left; exists ep'; split; [ by right | done ]
          | by rewrite lookup_empty in Hm ].
Qed.
End entry_point_facts.

(** ** Encryption of the agent API *)

Section crypto_facts.
Import crypto.
Context {cipher : ChaCha20Poly1305}.

(** X20.  [encrypt_chacha20_poly1305] and [decrypt_chacha20_poly1305]
    check the key length, then the nonce length, and raise [ValueError]
    naming the first length that is wrong, without calling the cipher; with
    a key of 32 bytes and a nonce of 12 they return what the cipher
    returns. *)
Theorem crypto_lengths_checked (key nonce data : bytes) (ad : option bytes) :
  (length key ≠ 32 →
     let e := ValueError ("Invalid key length " ++ pretty (length key)
                          ++ ". Expected 32.") in
     encrypt_chacha20_poly1305 key data nonce ad = inl e
     ∧ decrypt_chacha20_poly1305 key nonce data ad = inl e)
  ∧ (length key = 32 → length nonce ≠ 12 →
     let e := ValueError ("Invalid nonce length " ++ pretty (length nonce)
                          ++ ". Expected 12.") in
     encrypt_chacha20_poly1305 key data nonce ad = inl e
     ∧ decrypt_chacha20_poly1305 key nonce data ad = inl e)
  ∧ (length key = 32 → length nonce = 12 →
     encrypt_chacha20_poly1305 key data nonce ad = cipher_encrypt key nonce data ad
     ∧ decrypt_chacha20_poly1305 key nonce data ad = cipher_decrypt key nonce data ad).
Proof.
  unfold encrypt_chacha20_poly1305, decrypt_chacha20_poly1305,
    _validate_key_and_nonce, KEY_SIZE, NONCE_SIZE.
  split; [ | split ].
  - intros Hk%Nat.eqb_neq. by rewrite Hk.
  - intros Hk%Nat.eqb_eq Hn%Nat.eqb_neq. by rewrite Hk, Hn.
  - intros Hk%Nat.eqb_eq Hn%Nat.eqb_eq. by rewrite Hk, Hn.
Qed.

(** X21.  When [secrets.token_bytes(n)] gives [n] bytes, a key from
    [generate_key] and a nonce from [generate_nonce] pass the length
    checks, so encrypting with them is the cipher's encryption. *)
Theorem generated_key_and_nonce_fit {E} `{!Secrets E} (e : E)
    (data : bytes) (ad : option bytes) :
  (∀ n e', length (token_bytes n e').1 = n) →
  let '(key, e1) := generate_key e in
  let '(nonce, e2) := generate_nonce e1 in
  _validate_key_and_nonce key nonce = inr ()
  ∧ encrypt_chacha20_poly1305 key data nonce ad = cipher_encrypt key nonce data ad.
Proof.
  intros Hlen. unfold generate_key, generate_nonce.
  pose proof (Hlen KEY_SIZE e) as Hk.
  destruct (token_bytes KEY_SIZE e) as [key e1].
  pose proof (Hlen NONCE_SIZE e1) as Hn.
  destruct (token_bytes NONCE_SIZE e1) as [nonce e2]. cbn in Hk, Hn.
  unfold encrypt_chacha20_poly1305, _validate_key_and_nonce.
  by rewrite Hk, Hn, !Nat.eqb_refl.
Qed.
End crypto_facts.

Lemma assoc_header_set_eq k v (hs : list (string * string)) :
  assoc k (packers.header_set k v hs) = Some v.
Proof.
  induction hs as [ | [k' v'] hs IH ]; cbn.
  - by rewrite String.eqb_refl.
  - destruct (String.eqb k k') eqn:Hk; cbn; rewrite ?Hk; [ | done ].
    by rewrite String.eqb_refl.
Qed.

Lemma assoc_header_set_ne k k' v (hs : list (string * string)) :
  k ≠ k' → assoc k (packers.header_set k' v hs) = assoc k hs.
Proof.
  intros Hne. apply String.eqb_neq in Hne.
  induction hs as [ | [k0 v0] hs IH ]; cbn; [ by rewrite Hne | ].
  destruct (String.eqb_spec k' k0) as [<- | Hne']; cbn.
  - by rewrite Hne.
  - by rewrite IH.
Qed.

Section packers_facts.
Import crypto packers.
Context {uuid_text : UuidText} {E : Type} {secrets : Secrets E}
        {base64 : Base64} {cipher : ChaCha20Poly1305}.
Variable keys : gmap UUID NodeEncryptionKey.

Lemma node_uuid_frame (s s1 : EncryptionInformation * E) r :
  node_uuid s = (r, s1) →
  s1.2 = s.2
  ∧ (_request s1.1 = _request s.1 ∧ _response_nonce s1.1 = _response_nonce s.1)
  ∧ _node_encryption_key s1.1 = _node_encryption_key s.1
  ∧ (∀ u, r = inr u → _node_uuid s1.1 = Some u).
Proof.
  unfold node_uuid, mbind, self, set_self, ret, raise.
  destruct s as [i e]. cbn [fst snd].
  destruct (_node_uuid i) eqn:Hu.
  - intros [= <- <-]. cbn. split; [ done | ]. split; [ done | ].
    split; [ done | ]. by intros ? [= <-].
  - destruct (nonempty _); [ | by intros [= <- <-] ].
    destruct (UUID_parse _); intros [= <- <-]; cbn.
    + split; [ done | ]. split; [ done | ]. split; [ done | ].
      by intros ? [= <-].
    + done.
Qed.

Lemma get_key_frame (s s1 : EncryptionInformation * E) r :
  _get_node_encryption_key keys s = (r, s1) →
  s1.2 = s.2
  ∧ (_request s1.1 = _request s.1 ∧ _response_nonce s1.1 = _response_nonce s.1)
  ∧ (∀ k, r = inr k → _node_encryption_key s1.1 = Some k).
Proof.
  unfold _get_node_encryption_key, mbind at 1, self. destruct s as [i e].
  cbn [fst snd].
  destruct (_node_encryption_key i) as [k | ] eqn:Hk.
  - intros [= <- <-]. cbn. split; [ done | ]. split; [ done | ].
    by intros ? [= <-].
  - unfold mbind at 1. destruct (node_uuid (i, e)) as [[err | u] s'] eqn:Hnode.
    + intros [= <- <-]. destruct (node_uuid_frame _ _ _ Hnode) as (? & ? & _).
      split; [ done | ]. split; [ done | ]. done.
    + destruct (node_uuid_frame _ _ _ Hnode) as (He & [Hreq Hnonce] & _).
      destruct (keys !! u) as [k | ].
      * unfold mbind, set_self, ret. intros [= <- <-]. cbn.
        split; [ done | ]. split; [ done | ]. by intros ? [= <-].
      * unfold raise. intros [= <- <-]. split; [ done | ]. split; [ done | ]. done.
Qed.

Lemma response_nonce_cached (s : EncryptionInformation * E) nonce :
  _response_nonce s.1 = Some nonce → response_nonce s = (inr nonce, s).
Proof.
  unfold response_nonce, mbind, self, ret. destruct s as [i e]. cbn.
  by intros ->.
Qed.

Lemma response_nonce_caches (s s1 : EncryptionInformation * E) r :
  response_nonce s = (r, s1) →
  ∃ nonce, r = inr nonce ∧ _response_nonce s1.1 = Some nonce
           ∧ _request s1.1 = _request s.1
           ∧ _node_encryption_key s1.1 = _node_encryption_key s.1
           ∧ _node_uuid s1.1 = _node_uuid s.1
           ∧ (∀ n, _response_nonce s.1 = Some n → n = nonce ∧ s1 = s).
Proof.
  unfold response_nonce, mbind, self, ret. destruct s as [i e]. cbn [fst snd].
  destruct (_response_nonce i) as [n | ] eqn:Hn.
  - intros [= <- <-]. exists n. cbn. do 5 (split; [ done | ]).
    by intros ? [= <-].
  - cbn [fst snd]. destruct (generate_nonce e) as [nonce e']. intros [= <- <-].
    exists nonce. cbn. do 5 (split; [ done | ]). by intros ? [=].
Qed.

(** X22.  [_apply_encryption_headers] leaves the headers as they are, and
    generates no nonce, when encryption is not required at that time.  When
    it is required and the method returns, [Content-Type] is the request's
    content type (the encrypted JSON type if the request has none), the
    node header is the text of the node uuid the object holds, every other
    header is
    untouched, and the nonce header is the base64 text of the response
    nonce the object now holds: a [pack] that follows encrypts with that
    very nonce and draws no new randomness. *)
Theorem headers_announce_the_nonce_of_pack
    (now : Z) (hs hs' : list (string * string))
    (s s1 : EncryptionInformation * E) :
  _apply_encryption_headers keys now hs s = (inr hs', s1) →
  ∃ k, _node_encryption_key s1.1 = Some k
    ∧ ((encryption_disabled_until k <=? now)%Z = false →
       hs' = hs ∧ s1.2 = s.2 ∧ _response_nonce s1.1 = _response_nonce s.1)
    ∧ ((encryption_disabled_until k <=? now)%Z = true →
       ∃ nonce u,
         _response_nonce s1.1 = Some nonce ∧ _node_uuid s1.1 = Some u
         ∧ assoc GENESIS_NONCE_HEADER hs' = Some (b64encode nonce)
         ∧ assoc GENESIS_NODE_UUID_HEADER hs' = Some (UUID_str u)
         ∧ assoc "Content-Type" hs'
           = Some (default ENCRYPTED_JSON_CONTENT_TYPE
                     (nonempty (content_type (_request s.1))))
         ∧ (∀ name, name ∉ ["Content-Type"; GENESIS_NONCE_HEADER;
                            GENESIS_NODE_UUID_HEADER] →
                    assoc name hs' = assoc name hs)
         ∧ ∀ (O : Type) (json_pack : O → option bytes) obj plaintext key,
             json_pack obj = Some plaintext →
             b64decode (private_key k) = Some key →
             pack keys json_pack obj s1
             = (match encrypt_chacha20_poly1305 key plaintext nonce None with
                | inl e => inl (CryptoError e)
                | inr c => inr c
                end, s1)).
Proof.
  unfold _apply_encryption_headers, is_requires_encryption.
  unfold mbind at 1 2. intros Happly.
  destruct (_get_node_encryption_key keys s) as [[err | k] s0] eqn:Hkey; [ done | ].
  destruct (get_key_frame _ _ _ Hkey) as (He0 & [Hreq0 Hnonce0] & Hk0).
  specialize (Hk0 k eq_refl). unfold ret at 1 in Happly.
  destruct (encryption_disabled_until k <=? now)%Z eqn:Hnow; cbn [negb] in Happly.
  - (* encryption is required *)
    unfold mbind at 1, self at 1 in Happly. cbn [fst] in Happly.
    unfold mbind at 1 in Happly.
    destruct (response_nonce s0) as [r1 s2] eqn:Hresp.
    destruct (response_nonce_caches _ _ _ Hresp)
      as (nonce & -> & Hn2 & Hreq2 & Hk2 & Hu2 & _).
    unfold mbind at 1 in Happly.
    destruct (node_uuid s2) as [[err | u] s3] eqn:Hnode; [ done | ].
    destruct (node_uuid_frame _ _ _ Hnode) as (He3 & [Hreq3 Hn3] & Hk3 & Hu3).
    unfold ret in Happly. injection Happly as <- <-.
    exists k. split; [ by rewrite Hk3, Hk2 | ]. split; [ congruence | ]. intros _.
    exists nonce, u. split; [ by rewrite Hn3 | ].
    split; [ by apply Hu3 | ].
    split; [ rewrite assoc_header_set_ne by done; apply assoc_header_set_eq | ].
    split; [ apply assoc_header_set_eq | ].
    split; [ rewrite !assoc_header_set_ne by done;
             rewrite assoc_header_set_eq; by rewrite Hreq0 | ].
    split.
    + intros name Hname. rewrite !not_elem_of_cons in Hname.
      destruct Hname as (? & ? & ? & _). by rewrite !assoc_header_set_ne.
    + intros O json_pack obj plaintext key Hpack Hb64.
      unfold pack. rewrite Hpack. unfold encryption_key, mbind at 1 2.
      unfold _get_node_encryption_key, mbind at 1, self at 1. cbn [fst].
      rewrite Hk3, Hk2, Hk0. unfold ret at 1. rewrite Hb64. unfold ret at 1.
      unfold mbind. rewrite (response_nonce_cached s3 nonce) by by rewrite Hn3.
      by destruct (encrypt_chacha20_poly1305 key plaintext nonce None).
  - (* encryption is not required *)
    unfold ret in Happly. injection Happly as <- <-.
    exists k. split; [ done | ]. split; [ done | congruence ].
Qed.

(** X23.  The caches of the two request headers behave differently.  A
    missing nonce header makes [request_nonce_base64] raise [ValueError]
    each time; an empty one makes it raise the first time and return the
    empty string from then on, because the empty text was cached before the
    check.  [node_uuid] caches only after its check and raises each time
    for an empty header. *)
Theorem header_caches (req : request) (e : E) :
  let s0 := (init req, e) in
  let missing := ValueError "X-Genesis-Nonce header is missing or invalid" in
  (headers_get req GENESIS_NONCE_HEADER = None →
     (request_nonce_base64 s0).1 = inl missing
     ∧ (request_nonce_base64 (request_nonce_base64 s0).2).1 = inl missing)
  ∧ (headers_get req GENESIS_NONCE_HEADER = Some EmptyString →
     (request_nonce_base64 s0).1 = inl missing
     ∧ (request_nonce_base64 (request_nonce_base64 s0).2).1 = inr EmptyString)
  ∧ (nonempty (headers_get req GENESIS_NODE_UUID_HEADER) = None →
     node_uuid s0
     = (inl (ValueError "X-Genesis-Node-UUID header is missing or invalid"), s0)).
Proof.
  intros s0 missing. subst s0.
  unfold request_nonce_base64, node_uuid, mbind, self, set_self, ret, raise, init.
  cbn. split; [ | split ].
  - intros Hh. rewrite Hh. cbn. by rewrite Hh.
  - intros Hh. rewrite Hh. done.
  - intros Hh. rewrite Hh. done.
Qed.

Lemma nonempty_Some (text : string) :
  text ≠ EmptyString → nonempty (Some text) = Some text.
Proof.
  intros Hne. unfold nonempty.
  by destruct (String.eqb_spec text EmptyString).
Qed.

(** X24.  [unpack] gives back what a peer packed: when the cipher decrypts
    what it encrypted, a message encrypted by [encrypt_chacha20_poly1305]
    with the key stored for the node of the request's node header and the
    nonce of the request's nonce header is decrypted and unpacked to the
    object of its plain text. *)
Theorem unpack_round_trip {O} (json_unpack : bytes → option O)
    (req : request) (e : E) (node_text n64 : string) (u : UUID)
    (k : NodeEncryptionKey) (key nonce plaintext ciphertext : bytes) (obj : O) :
  (∀ key nonce p c, cipher_encrypt key nonce p None = inr c →
                    cipher_decrypt key nonce c None = inr p) →
  headers_get req GENESIS_NODE_UUID_HEADER = Some node_text →
  node_text ≠ EmptyString → UUID_parse node_text = Some u →
  keys !! u = Some k → b64decode (private_key k) = Some key →
  headers_get req GENESIS_NONCE_HEADER = Some n64 →
  n64 ≠ EmptyString → b64decode n64 = Some nonce →
  encrypt_chacha20_poly1305 key plaintext nonce None = inr ciphertext →
  json_unpack plaintext = Some obj →
  (unpack keys json_unpack ciphertext (init req, e)).1 = inr obj.
Proof.
  intros Hcipher Hnode Hnode_ne Hparse Hkey Hb64 Hnonce Hnonce_ne Hn64 Henc Hobj.
  unfold encrypt_chacha20_poly1305 in Henc.
  destruct (_validate_key_and_nonce key nonce) as [err | []] eqn:Hvalid; [ done | ].
  apply Hcipher in Henc.
  unfold unpack, encryption_key, _get_node_encryption_key, node_uuid,
    request_nonce, request_nonce_base64, decrypt_chacha20_poly1305,
    mbind, self, set_self, ret, raise, init.
  cbn [fst snd _node_encryption_key _node_uuid _request _request_nonce_base64].
  rewrite Hnode, (nonempty_Some _ Hnode_ne), Hparse, Hkey, Hb64.
  cbn [fst snd _node_encryption_key _node_uuid _request _request_nonce_base64].
  rewrite Hnonce, (nonempty_Some _ Hnonce_ne), Hn64, Hvalid, Henc, Hobj.
  reflexivity.
Qed.
End packers_facts.

(** ** The further properties on sample data *)

Section sample_facts.
Import examples.
#[local] Existing Instance canonical_uuid_text.
#[local] Existing Instance base_models.
#[local] Existing Instance memory_http.client.
#[local] Existing Instance scenario.client.

Lemma disk_unsupported : kind samples.disk9 ∉ get_capabilities scenario.driver.
Proof. vm_compute. intros [=]. Defined.

Lemma node7_supported : kind scenario.node7 ∈ get_capabilities scenario.driver.
Proof. vm_compute. reflexivity. Defined.

Lemma unsupported_kind_touches_nothing_witness :
  scenario.update samples.disk9 scenario.synced
  = fail (TypeError "Unsupported capability disk") scenario.synced samples.disk9
  ∧ scenario.list "disk" scenario.synced
    = (Raise (TypeError "Unsupported capability disk"), scenario.synced).
Proof.
  destruct (unsupported_kind_touches_nothing (_client := scenario.client)
              scenario.driver samples.disk9 scenario.synced disk_unsupported)
    as (_ & _ & Hupdate & _ & Hlist).
  split; [ exact Hupdate | exact Hlist ].
Defined.

Lemma get_store_then_client_witness :
  storage_of (r_state (scenario.get scenario.node7 scenario.synced))
  = storage_of scenario.synced
  ∧ r_result (scenario.get scenario.node7 scenario.orphan)
    = Raise (DriverExc driver_exc.ResourceNotFound)
  ∧ is_ok (r_result (scenario.get scenario.node7 scenario.synced)) = true.
Proof.
  destruct (get_store_then_client (_client := scenario.client) scenario.driver
              scenario.node7 scenario.synced node7_supported) as (Hstore & _).
  split; [ exact Hstore | ]. split; vm_compute; reflexivity.
Defined.

Lemma get_after_create_witness :
  let created := scenario.create scenario.node7 scenario.taken in
  let resource' := with_value scenario.node7 (r_value created) in
  ∃ item,
    r_result (client_get resource' (backend (r_state created))) = Ok item
    ∧ r_result (scenario.get resource' (r_state created))
      = direct._prepare_res_response scenario.driver
          (with_value resource'
             (r_value (client_get resource' (backend (r_state created)))))
          item (dict_keys (value scenario.node7)).
Proof.
  intros created resource'.
  destruct (r_result (client_get resource' (backend (r_state created))))
    as [item | e] eqn:Hc; [ | by vm_compute in Hc ].
  exists item. split; [ done | ].
  exact (get_after_create (_client := scenario.client) scenario.driver
           scenario.node7 scenario.taken item node7_supported Hc).
Defined.

Lemma after_delete_witness :
  let deleted := scenario.delete scenario.node7 scenario.synced in
  r_result (scenario.get (with_value scenario.node7 (r_value deleted))
              (r_state deleted))
  = Raise (DriverExc driver_exc.ResourceNotFound).
Proof.
  intros deleted.
  destruct (after_delete (_client := scenario.client) scenario.driver
              scenario.node7 scenario.synced node7_supported) as [Hget _].
  - vm_compute. reflexivity.
  - subst deleted. unfold scenario.get, scenario.delete.
    cbv zeta in Hget. by rewrite Hget.
Defined.

Lemma update_after_create_witness :
  let created := scenario.create scenario.node7 scenario.taken in
  storage_of
    (r_state (scenario.update (with_value scenario.node7 [("cores", JInt 8)])
                (r_state created)))
  !! ("node", 7%N) = Some (dict_keys [("cores", JInt 8)]).
Proof.
  intros created.
  destruct (r_result (client_update (with_value scenario.node7 [("cores", JInt 8)])
                        (backend (r_state created)))) as [resp | e] eqn:Hc;
    [ | by vm_compute in Hc ].
  exact (proj2 (update_after_create (_client := scenario.client) scenario.driver
                  scenario.node7 scenario.taken [("cores", JInt 8)] resp
                  node7_supported Hc)).
Defined.

Lemma list_entries_built_from_witness :
  ∃ entries w' items,
    scenario.list_entries "node" scenario.synced = (Ok entries, w')
    ∧ entries.*1 = [7%N]
    ∧ (client_list "node" (backend scenario.synced)).1 = Ok items
    ∧ ∀ u r, (u, r) ∈ entries →
             ∃ i, i ∈ items
                  ∧ built_from scenario.driver "node"
                      (storage_of scenario.synced) i u r.
Proof.
  destruct (scenario.list_entries "node" scenario.synced) as [[entries | e] w']
    eqn:Hl; [ | by vm_compute in Hl ].
  destruct (list_entries_built_from (_client := scenario.client) scenario.driver
              "node" scenario.synced w' entries Hl) as (items & Hitems & Hbuilt).
  exists entries, w', items. split; [ done | ].
  split; [ | by split ].
  vm_compute in Hl. by injection Hl as <- _.
Defined.

Lemma rest_unconfigured_kind_witness :
  rest.create scenario.nodes_api samples.disk9 (backend scenario.taken)
  = fail (KeyError "disk") (backend scenario.taken) samples.disk9.
Proof.
  destruct (rest_unconfigured_kind (http := memory_http.client)
              scenario.nodes_api samples.disk9 (backend scenario.taken))
    as (_ & Hcreate & _); [ reflexivity | exact Hcreate ].
Defined.


Lemma rest_update_payload_witness :
  calls (r_state (rest.update scenario.nodes_api samples.node7_full
                    (backend scenario.taken)))
  = [HttpUpdate "/v1/nodes/" 7 [("name", JStr "n7"); ("cores", JInt 4)]].
Proof.
  destruct (rest_update_payload (http := memory_http.client)
              scenario.nodes_api samples.node7_full (backend scenario.taken)
              "/v1/nodes/" eq_refl) as (kwargs & Hcalls & _ & _).
  vm_compute in Hcalls |- *. reflexivity.
Defined.

Lemma rest_create_keeps_other_attributes_witness :
  (r_value (rest.create scenario.nodes_api samples.node7_full
              (backend scenario.fresh))).*1
  = ["uuid"; "name"; "created_at"; "cores"; "project_id"]
  ∧ assoc "name" (r_value (rest.create scenario.nodes_api samples.node7_full
                             (backend scenario.fresh)))
    = Some (JStr "n7").
Proof.
  destruct (rest_create_keeps_other_attributes (http := memory_http.client)
              scenario.nodes_api samples.node7_full (backend scenario.fresh)
              "/v1/nodes/" eq_refl) as (Hother & Hkeys & _).
  split; [ by rewrite Hkeys | ]. by rewrite Hother.
Defined.

Lemma outdated_view_rows_witness :
  ∃ row,
    row ∈ migration_0004.ua_outdated_tracked_full_hash_instances_view
            [scenario.tracked5] [scenario.target11] []
    ∧ migration_0004.uuid row = 5%N
    ∧ migration_0004.actual_resource row = None
    ∧ migration_0004.full_hash row ≠ migration_0004.actual_full_hash row.
Proof.
  exists (migration_0004.select scenario.tracked5 scenario.target11 None).
  assert (migration_0004.select scenario.tracked5 scenario.target11 None
          ∈ migration_0004.ua_outdated_tracked_full_hash_instances_view
              [scenario.tracked5] [scenario.target11] []) as Hin
    by (vm_compute; left).
  destruct (outdated_view_rows _ _ _ _ Hin) as (_ & Hne & _).
  by repeat split.
Defined.

Lemma outdated_view_left_join_witness :
  migration_0004.select scenario.tracked5 scenario.target11 None
  ∈ migration_0004.ua_outdated_tracked_full_hash_instances_view
      [scenario.tracked5] [scenario.target11] [].
Proof.
  destruct (outdated_view_left_join [scenario.tracked5] [scenario.target11] []
              scenario.tracked5 scenario.target11 11%N) as [_ Hnull];
    [ left | left | reflexivity | reflexivity | discriminate | ].
  apply Hnull. intros uar Hin. by apply elem_of_nil in Hin.
Defined.

Lemma load_from_entry_point_first_witness :
  common_utils.load_from_entry_point samples.installed "services" "created"
  = inl (common_utils.RuntimeError "no backend configured")
  ∧ common_utils.load_from_entry_point samples.installed "services" "deleted"
    = inl (common_utils.RuntimeError
             "No class 'deleted' found in entry points services").
Proof.
  destruct (load_from_entry_point_first samples.installed "services" "created")
    as (_ & Hfirst & _).
  destruct (load_from_entry_point_first samples.installed "services" "deleted")
    as (Hnone & _).
  split.
  - rewrite (Hfirst (take 1 samples.installed)
               {| common_utils.ep_group := "services";
                  common_utils.ep_name := "created";
                  common_utils.ep_load :=
                    inl (common_utils.RuntimeError "no backend configured") |}
               (drop 2 samples.installed)); try done.
    intros ep' Hin. vm_compute in Hin.
    repeat (apply elem_of_cons in Hin as [-> | Hin]); try done.
    by apply elem_of_nil in Hin.
  - apply Hnone. intros ep Hin. vm_compute in Hin.
    repeat (apply elem_of_cons in Hin as [-> | Hin]); try done.
    by apply elem_of_nil in Hin.
Defined.

Lemma payload_map_agrees_witness :
  ∃ m, common_utils.load_event_payload_map samples.installed = inr m
       ∧ m !! "created" = Some 1
       ∧ common_utils.load_from_entry_point samples.installed
           common_utils.EVENT_PAYLOADS_GROUP "created" = inr 1.
Proof.
  destruct (common_utils.load_event_payload_map samples.installed) as [e | m]
    eqn:Hm; [ by vm_compute in Hm | ].
  exists m. split; [ done | ].
  assert (common_utils.load_from_entry_point samples.installed
            common_utils.EVENT_PAYLOADS_GROUP "created" = inr 1) as Hload
    by (vm_compute; reflexivity).
  split; [ | done ].
  apply (payload_map_agrees samples.installed m "created" 1 Hm); [ | done ].
  vm_compute. repeat constructor; intros Hin;
    repeat (apply elem_of_cons in Hin as [[=] | Hin]); by apply elem_of_nil in Hin.
Defined.

Lemma generated_key_and_nonce_fit_witness :
  @crypto.encrypt_chacha20_poly1305 samples.null_cipher
    (repeat Byte.x00 32) [Byte.x01] (repeat Byte.x00 12) None = inr [Byte.x01].
Proof.
  pose proof (@generated_key_and_nonce_fit samples.null_cipher nat
                samples.zero_secrets 0 [Byte.x01] None) as Hfit.
  cbn in Hfit. apply Hfit. intros n e'. cbn. apply repeat_length.
Defined.

Lemma headers_announce_the_nonce_of_pack_witness :
  ∃ hs' s1,
    @packers._apply_encryption_headers canonical_uuid_text nat
      samples.zero_secrets samples.plain_base64
      {[ 7%N := samples.key7 ]} 200 [("Server", "x")]
      (packers.init samples.request7, 0) = (inr hs', s1)
    ∧ assoc packers.GENESIS_NONCE_HEADER hs'
      = Some (string_of_list_byte (repeat Byte.x00 12))
    ∧ assoc "Server" hs' = Some "x".
Proof.
  destruct (@packers._apply_encryption_headers canonical_uuid_text nat
              samples.zero_secrets samples.plain_base64
              {[ 7%N := samples.key7 ]} 200 [("Server", "x")]
              (packers.init samples.request7, 0)) as [[e | hs'] s1] eqn:Happly;
    [ by vm_compute in Happly | ].
  exists hs', s1. split; [ done | ].
  destruct (@headers_announce_the_nonce_of_pack canonical_uuid_text nat
              samples.zero_secrets samples.plain_base64 samples.null_cipher
              _ _ _ _ _ _ Happly) as (k & Hk & _ & Hrequired).
  vm_compute in Happly. injection Happly as <- <-.
  split; vm_compute; reflexivity.
Defined.

Lemma unpack_round_trip_witness :
  (@packers.unpack canonical_uuid_text nat samples.plain_base64
     samples.null_cipher {[ 7%N := samples.key7 ]} string
     (λ b, Some (string_of_list_byte b)) (list_byte_of_string "{}")
     (packers.init samples.request7_nonce, 0)).1 = inr "{}".
Proof.
  apply (@unpack_round_trip canonical_uuid_text nat samples.plain_base64
           samples.null_cipher {[ 7%N := samples.key7 ]} string
           (λ b, Some (string_of_list_byte b)) samples.request7_nonce 0
           (canonical_str 7) "abcdefghijkl" 7%N samples.key7
           (list_byte_of_string "0123456789abcdef0123456789abcdef")
           (list_byte_of_string "abcdefghijkl")
           (list_byte_of_string "{}") (list_byte_of_string "{}") "{}").
  - intros key nonce p c. cbn. by intros [= ->].
  - vm_compute. reflexivity.
  - vm_compute. discriminate.
  - vm_compute. reflexivity.
  - vm_compute. reflexivity.
  - vm_compute. reflexivity.
  - vm_compute. reflexivity.
  - discriminate.
  - vm_compute. reflexivity.
  - vm_compute. reflexivity.
  - vm_compute. reflexivity.
Defined.
End sample_facts.
